(** * cepton_ros: the driver nodelet and the SDK point utilities

    A shallow embedding of [src/driver_nodelet.cpp] and of the point
    conversion of [third_party/cepton_sdk/include/cepton_sdk_util.hpp],
    with the properties of the design document proved about it. *)

From Stdlib Require Import Reals Lra.
From Stdlib Require Import ZArith NArith Lia.
From Stdlib Require Import Ascii String DecimalString DecimalN.
From stdpp Require Import gmap strings list fin_maps.

(** ** Arithmetic of [float]

    The SDK computes on C++ [float].  The conversion code is embedded over an
    interface of the operations it uses, so that what is proved of its shape
    holds for any arithmetic; the exact-arithmetic reading instantiates the
    interface with the real numbers. *)

Class FloatArith (F : Type) := {
  f_one : F;                 (* the literal 1.0f *)
  f_add : F -> F -> F;
  f_mul : F -> F -> F;
  f_div : F -> F -> F;
  f_neg : F -> F;
  f_sqrt : F -> F            (* std::sqrt *)
}.

#[export] Instance R_arith : FloatArith R := {|
  f_one := 1%R;
  f_add := Rplus;
  f_mul := Rmult;
  f_div := Rdiv;
  f_neg := Ropp;
  f_sqrt := sqrt
|}.

Section Points.
Context {F : Type} `{FloatArith F}.

(** [template <typename T> inline T square(T x)] *)
Definition square (x : F) : F := f_mul x x.

(** [convert_image_point_to_point]: the three reference parameters
    [x], [y], [z] are written once each, and returned here as a triple. *)
Definition convert_image_point_to_point (image_x image_z distance : F)
  : F * F * F :=
  let focal_length_squared := f_one in
  let hypotenuse_small :=
    f_sqrt (f_add (f_add (square image_x) (square image_z))
                  focal_length_squared) in
  let ratio := f_div distance hypotenuse_small in
  let x := f_mul (f_neg image_x) ratio in
  let y := ratio in
  let z := f_mul (f_neg image_z) ratio in
  (x, y, z).
End Points.

(** The contract of the design document, in its own words, over the reals:
    [h = sqrt(image_x^2 + image_z^2 + 1)], [ratio = distance / h],
    [x = -image_x * ratio], [y = ratio], [z = -image_z * ratio]. *)
Definition imageToCartesian_spec (image_x image_z distance : R) : R * R * R :=
  let h := sqrt (image_x ^ 2 + image_z ^ 2 + 1)%R in
  let ratio := (distance / h)%R in
  ((- image_x * ratio)%R, ratio, (- image_z * ratio)%R).


(** ** SDK types ([cepton_sdk.h], [cepton_sdk_util.hpp])

    [uint64_t], [uint8_t] and [std::size_t] values are natural numbers
    ([N]); none of the code below does arithmetic on them that could wrap,
    except the 32-bit [width] counter of the point cloud, whose wrap-around
    is written out in [uint32_incr]. *)

(** [struct CeptonSensorInformation]: the fields the nodelet reads. *)
Record CeptonSensorInformation := {
  handle : N;
  serial_number : N;
  model_name : string;
  firmware_version : string
}.

Section PointTypes.
Context {F : Type}.

(** [struct CeptonSensorImagePoint] *)
Record CeptonSensorImagePoint := {
  ip_timestamp : N;
  image_x : F;
  distance : F;
  image_z : F;
  ip_intensity : F;
  ip_return_number : N;
  ip_valid : N
}.

(** [struct cepton_sdk::SensorPoint] *)
Record SensorPoint := {
  timestamp : N;
  x : F;
  y : F;
  z : F;
  intensity : F;
  return_number : N;
  valid : N
}.

(** [convert_sensor_image_point_to_point] *)
Definition convert_sensor_image_point_to_point `{FloatArith F}
    (image_point : CeptonSensorImagePoint) : SensorPoint :=
  let '(px, py, pz) :=
    convert_image_point_to_point (image_x image_point)
      (image_z image_point) (distance image_point) in
  {| timestamp := ip_timestamp image_point;
     intensity := ip_intensity image_point;
     return_number := ip_return_number image_point;
     valid := ip_valid image_point;
     x := px; y := py; z := pz |}.

(** *** Point cloud types

    The declarations of [CeptonPoint] and [CeptonPointCloud] are not among
    the sources.  [CeptonPoint] is given the five fields [on_receive]
    writes, which are all it writes of a point.  [CeptonPointCloud] is a
    PCL point cloud of such points; of [pcl::PointCloud] these are the
    members [on_receive] touches: the header's [stamp] ([uint64_t]) and
    [frame_id], the vector [points], and the [uint32_t] counters [width]
    and [height]. *)
Record CeptonPoint := {
  pcl_timestamp : N;
  pcl_x : F;
  pcl_y : F;
  pcl_z : F;
  pcl_intensity : F
}.

Record PCLHeader := {
  stamp : N;
  frame_id : string
}.

Record CeptonPointCloud := {
  header : PCLHeader;
  points : list CeptonPoint;
  width : N;
  height : N
}.

(** [new CeptonPointCloud()]: no points, [width] and [height] 0. *)
Definition empty_cloud : CeptonPointCloud :=
  {| header := {| stamp := 0; frame_id := "" |};
     points := []; width := 0; height := 0 |}.

(** *** ROS handles and observable effects

    A [ros::Publisher] is identified by the serial number of the
    [advertise] call that made it; the default-constructed publisher has
    [pub_id = 0] and an empty topic. *)
Record Publisher := {
  pub_id : N;
  pub_topic : string;
  pub_queue_size : N
}.

(** The message [cepton_ros::SensorInformation]. *)
Record SensorInformation := {
  msg_handle : N;
  msg_serial_number : N;
  msg_model_name : string;
  msg_firmware_version : string
}.

Inductive Event :=
| NODELET_WARN (format : string) (error_code : Z)
| NODELET_INFO (format : string) (sensor_name : string)
| ADVERTISE (pub : Publisher)
| PUBLISH_INFORMATION (pub : Publisher) (msg : SensorInformation)
| PUBLISH_POINTS (pub : Publisher) (cloud : CeptonPointCloud).

(** The members of [DriverNodelet].  [node_handle] is the number of
    [advertise] calls made so far. *)
Record DriverNodelet := {
  node_handle : N;
  combine_sensors : bool;
  output_namespace : string;
  sensor_information_publisher : Publisher;
  combined_points_publisher : Publisher;
  sensor_points_publishers : gmap string Publisher
}.
End PointTypes.

Arguments CeptonSensorImagePoint : clear implicits.
Arguments SensorPoint : clear implicits.
Arguments CeptonPoint : clear implicits.
Arguments CeptonPointCloud : clear implicits.
Arguments Event : clear implicits.

(** Modelled from the spec: the declaration of [CeptonSensorPoint], the
    element type of the batches [on_receive] is handed, is not among the
    sources.  The data model's CartesianPoint has a timestamp, x, y, z, an
    intensity, a return index and a validity flag, which is the record
    [SensorPoint] of the SDK utilities; [on_receive] reads only
    [timestamp], [x], [y], [z] and [intensity]. *)
Abbreviation CeptonSensorPoint := SensorPoint (only parsing).

(** ** [std::to_string] on [uint64_t]: the decimal digits, most significant
    first, ["0"] for zero. *)
Definition to_string (n : N) : string :=
  NilZero.string_of_uint (N.to_uint n).

(** What "the decimal string form of n" means, independently of
    [to_string]: a non-empty string of digits whose value, read by Horner's
    rule, is [n]. *)
Definition digit_value (c : ascii) : option N :=
  let n := N_of_ascii c in
  if (48 <=? n)%N && (n <=? 57)%N then Some (n - 48)%N else None.

Fixpoint decimal_value_from (acc : N) (s : string) : option N :=
  match s with
  | EmptyString => Some acc
  | String c s' =>
      match digit_value c with
      | Some d => decimal_value_from (10 * acc + d)%N s'
      | None => None
      end
  end.

Definition decimal_value (s : string) : option N :=
  match s with
  | EmptyString => None
  | _ => decimal_value_from 0 s
  end.

(** [get_sensor_name] *)
Definition get_sensor_name (sensor_information : CeptonSensorInformation)
  : string :=
  to_string (serial_number sensor_information).

(** ** The nodelet's computations: state, log, undefined behaviour

    A member function of [DriverNodelet] is a function from the members'
    values to the result, the new values and the effects it had on the
    outside, in order.  [None] stands for a call that does not return
    normally: a null pointer is dereferenced (undefined behaviour), or
    [std::map::at] throws on a missing key. *)
Section Nodelet.
Context {F : Type}.

Definition M (A : Type) : Type :=
  DriverNodelet -> option (A * DriverNodelet * list (Event F)).

Definition ret {A} (a : A) : M A := fun st => Some (a, st, []).

Definition bind {A B} (m : M A) (k : A -> M B) : M B := fun st =>
  match m st with
  | None => None
  | Some (a, st1, log1) =>
      match k a st1 with
      | None => None
      | Some (b, st2, log2) => Some (b, st2, log1 ++ log2)
      end
  end.

Definition read {A} (field : DriverNodelet -> A) : M A :=
  fun st => Some (field st, st, []).

Definition emit (e : Event F) : M unit := fun st => Some (tt, st, [e]).

(** [*ptr], and [map.at(key)] on the result of a lookup. *)
Definition deref {A} (ptr : option A) : M A := fun st =>
  match ptr with
  | Some a => Some (a, st, [])
  | None => None
  end.

(** [node_handle.advertise<T>(topic, queue_size)] *)
Definition advertise (topic : string) (queue_size : N) : M Publisher :=
  fun st =>
    let pub := {| pub_id := N.succ (node_handle st);
                  pub_topic := topic;
                  pub_queue_size := queue_size |} in
    Some (pub,
          {| node_handle := N.succ (node_handle st);
             combine_sensors := combine_sensors st;
             output_namespace := output_namespace st;
             sensor_information_publisher := sensor_information_publisher st;
             combined_points_publisher := combined_points_publisher st;
             sensor_points_publishers := sensor_points_publishers st |},
          [ADVERTISE pub]).

(** [sensor_points_publishers[sensor_name] = pub] *)
Definition store_sensor_points_publisher (sensor_name : string)
    (pub : Publisher) : M unit :=
  fun st =>
    Some (tt,
          {| node_handle := node_handle st;
             combine_sensors := combine_sensors st;
             output_namespace := output_namespace st;
             sensor_information_publisher := sensor_information_publisher st;
             combined_points_publisher := combined_points_publisher st;
             sensor_points_publishers :=
               <[sensor_name := pub]> (sensor_points_publishers st) |},
          []).
End Nodelet.

Declare Scope nodelet_scope.
Delimit Scope nodelet_scope with nodelet.
Notation "x <- m ;; k" := (bind m (fun x => k))
  (at level 100, m at next level, right associativity) : nodelet_scope.
Notation "m ;; k" := (bind m (fun _ => k))
  (at level 100, right associativity) : nodelet_scope.

(** [++width] on a [uint32_t]. *)
Definition uint32_incr (w : N) : N := ((w + 1) mod 2 ^ 32)%N.

Section NodeletMethods.
Context {F : Type}.
Local Open Scope nodelet_scope.

(** [DriverNodelet::get_sensor_points_topic_id] *)
Definition get_sensor_points_topic_id (sensor_name : string)
  : M (F:=F) string :=
  combine <- read combine_sensors ;;
  ns <- read output_namespace ;;
  if combine then ret (ns +:+ "_points")
  else ret (ns +:+ "_points_" +:+ sensor_name).

(** [DriverNodelet::get_sensor_frame_id] *)
Definition get_sensor_frame_id (sensor_name : string) : M (F:=F) string :=
  combine <- read combine_sensors ;;
  ns <- read output_namespace ;;
  if combine then ret ns
  else ret (ns +:+ "_" +:+ sensor_name).

(** [DriverNodelet::get_sensor_points_publisher]: [count], then
    [operator[]] with the new publisher, then [at].  The reference it
    returns is read at once by the caller, so the publisher's value is
    returned. *)
Definition get_sensor_points_publisher (sensor_name : string)
  : M (F:=F) Publisher :=
  combine <- read combine_sensors ;;
  if combine then read combined_points_publisher
  else
    publishers <- read sensor_points_publishers ;;
    (match publishers !! sensor_name with
     | Some _ => ret tt
     | None =>
         topic <- get_sensor_points_topic_id sensor_name ;;
         pub <- advertise topic 10 ;;
         store_sensor_points_publisher sensor_name pub
     end) ;;
    publishers <- read sensor_points_publishers ;;
    deref (publishers !! sensor_name).

(** [DriverNodelet::publish_sensor_information] *)
Definition publish_sensor_information
    (sensor_information : CeptonSensorInformation) : M (F:=F) unit :=
  let msg :=
    {| msg_handle := handle sensor_information;
       msg_serial_number := serial_number sensor_information;
       msg_model_name := model_name sensor_information;
       msg_firmware_version := firmware_version sensor_information |} in
  pub <- read sensor_information_publisher ;;
  emit (PUBLISH_INFORMATION pub msg).

(** The first loop of [on_receive]:
    [message_timestamp = std::max(message_timestamp, points[i].timestamp)]
    from [message_timestamp = 0]. *)
Definition message_timestamp_of (points : list (CeptonSensorPoint F)) : N :=
  fold_left (fun message_timestamp cepton_point =>
               N.max message_timestamp (timestamp cepton_point))
            points 0%N.

(** The body of the second loop of [on_receive]. *)
Definition push_point (cloud : CeptonPointCloud F)
    (cepton_point : CeptonSensorPoint F) : CeptonPointCloud F :=
  let pcl_point :=
    {| pcl_timestamp := timestamp cepton_point;
       pcl_x := x cepton_point;
       pcl_y := y cepton_point;
       pcl_z := z cepton_point;
       pcl_intensity := intensity cepton_point |} in
  {| header := header cloud;
     points := points cloud ++ [pcl_point];
     width := uint32_incr (width cloud);
     height := height cloud |}.

(** The cloud of lines 139 to 143: a new [CeptonPointCloud] whose
    [header.stamp], [header.frame_id] and [height] are then assigned. *)
Definition new_point_cloud (message_timestamp : N) (frame_id : string)
  : CeptonPointCloud F :=
  {| header := {| stamp := message_timestamp; frame_id := frame_id |};
     points := points (empty_cloud (F:=F));
     width := width (empty_cloud (F:=F));
     height := 1 |}.

(** "Convert to point cloud": lines 135 to 155 of [on_receive].
    [reserve] only allocates and leaves the cloud's value as it is. *)
Definition convert_to_point_cloud (frame_id : string)
    (points : list (CeptonSensorPoint F)) : CeptonPointCloud F :=
  let message_timestamp := message_timestamp_of points in
  let point_cloud := new_point_cloud message_timestamp frame_id in
  fold_left push_point points point_cloud.

(** [DriverNodelet::on_receive].  [cepton_sdk_get_sensor_information] is
    the acquisition engine's lookup, [None] being the null pointer;
    [n_points] is the length of [points]. *)
Definition on_receive
    (cepton_sdk_get_sensor_information :
       N -> option CeptonSensorInformation)
    (error_code : Z) (sensor_handle : N)
    (points : list (CeptonSensorPoint F)) : M (F:=F) unit :=
  (if (error_code <? 0)%Z
   then emit (NODELET_WARN "on_receive failed: %i" error_code)
   else ret tt) ;;
  let sensor_information_ptr :=
    cepton_sdk_get_sensor_information sensor_handle in
  sensor_information <- deref sensor_information_ptr ;;
  let sensor_name := get_sensor_name sensor_information in
  publish_sensor_information sensor_information ;;
  frame_id <- get_sensor_frame_id sensor_name ;;
  let point_cloud := convert_to_point_cloud frame_id points in
  pub <- get_sensor_points_publisher sensor_name ;;
  emit (PUBLISH_POINTS pub point_cloud).

(** [DriverNodelet::on_event].  The values of the three event constants
    are declared outside the sources and are parameters here; a C++
    [switch] has pairwise distinct case labels. *)
Definition on_event
    (CEPTON_EVENT_ATTACH CEPTON_EVENT_DETACH CEPTON_EVENT_FRAME : Z)
    (error_code : Z) (sensor_handle : N)
    (sensor_information_ptr : option CeptonSensorInformation)
    (sensor_event : Z) : M (F:=F) unit :=
  if (error_code <? 0)%Z
  then emit (NODELET_WARN "on_event failed: %i" error_code)
  else
    sensor_information <- deref sensor_information_ptr ;;
    let sensor_name := get_sensor_name sensor_information in
    if (sensor_event =? CEPTON_EVENT_ATTACH)%Z
    then emit (NODELET_INFO "sensor connected: %s" sensor_name)
    else if (sensor_event =? CEPTON_EVENT_DETACH)%Z
    then emit (NODELET_INFO "sensor disconnected: %s" sensor_name)
    else if (sensor_event =? CEPTON_EVENT_FRAME)%Z
    then ret tt
    else ret tt.
End NodeletMethods.

(** ** What a log shows *)
Section Observations.
Context {F : Type}.

(** The frames published, with the channel each went to. *)
Definition published_points (log : list (Event F))
  : list (Publisher * CeptonPointCloud F) :=
  omap (fun e => match e with
                 | PUBLISH_POINTS pub cloud => Some (pub, cloud)
                 | _ => None
                 end) log.

(** The sensor information notices published. *)
Definition published_information (log : list (Event F))
  : list (Publisher * SensorInformation) :=
  omap (fun e => match e with
                 | PUBLISH_INFORMATION pub msg => Some (pub, msg)
                 | _ => None
                 end) log.

(** The channels created. *)
Definition advertised (log : list (Event F)) : list Publisher :=
  omap (fun e => match e with
                 | ADVERTISE pub => Some pub
                 | _ => None
                 end) log.

(** The warnings logged. *)
Definition warnings (log : list (Event F)) : list (string * Z) :=
  omap (fun e => match e with
                 | NODELET_WARN format error_code =>
                     Some (format, error_code)
                 | _ => None
                 end) log.
End Observations.

(** ** Shapes of results, used to state what the methods return *)
Section Shapes.
Implicit Types (st : DriverNodelet) (sensor_name : string).

(** The publisher a first lookup creates, and the members after it. *)
Definition created_publisher st sensor_name : Publisher :=
  {| pub_id := N.succ (node_handle st);
     pub_topic := output_namespace st +:+ "_points_" +:+ sensor_name;
     pub_queue_size := 10 |}.

Definition after_creation st sensor_name : DriverNodelet :=
  {| node_handle := N.succ (node_handle st);
     combine_sensors := combine_sensors st;
     output_namespace := output_namespace st;
     sensor_information_publisher := sensor_information_publisher st;
     combined_points_publisher := combined_points_publisher st;
     sensor_points_publishers :=
       <[sensor_name := created_publisher st sensor_name]>
         (sensor_points_publishers st) |}.

(** The frame identifier of a sensor. *)
Definition frame_id_of st sensor_name : string :=
  if combine_sensors st then output_namespace st
  else output_namespace st +:+ "_" +:+ sensor_name.

(** The notice [publish_sensor_information] sends. *)
Definition information_message
    (sensor_information : CeptonSensorInformation) : SensorInformation :=
  {| msg_handle := handle sensor_information;
     msg_serial_number := serial_number sensor_information;
     msg_model_name := model_name sensor_information;
     msg_firmware_version := firmware_version sensor_information |}.

(** The point [on_receive] stores for a point of the batch. *)
Definition pcl_point_of {F : Type} (cepton_point : CeptonSensorPoint F)
  : CeptonPoint F :=
  {| pcl_timestamp := timestamp cepton_point;
     pcl_x := x cepton_point;
     pcl_y := y cepton_point;
     pcl_z := z cepton_point;
     pcl_intensity := intensity cepton_point |}.
End Shapes.

(** ** The nodelet's life: a sequence of calls

    After [onInit] the members are touched by [on_receive] and [on_event],
    which the acquisition engine calls, and by
    [get_sensor_points_publisher]. *)
Section Calls.
Context {F : Type}.
Variables CEPTON_EVENT_ATTACH CEPTON_EVENT_DETACH CEPTON_EVENT_FRAME : Z.
Local Open Scope nodelet_scope.

Inductive Call :=
| call_on_receive
    (cepton_sdk_get_sensor_information :
       N -> option CeptonSensorInformation)
    (error_code : Z) (sensor_handle : N)
    (points : list (CeptonSensorPoint F))
| call_on_event (error_code : Z) (sensor_handle : N)
    (sensor_information_ptr : option CeptonSensorInformation)
    (sensor_event : Z)
| call_get_sensor_points_publisher (sensor_name : string).

Definition call (c : Call) : M (F:=F) unit :=
  match c with
  | call_on_receive sdk error_code sensor_handle points =>
      on_receive sdk error_code sensor_handle points
  | call_on_event error_code sensor_handle sensor_information_ptr
      sensor_event =>
      on_event CEPTON_EVENT_ATTACH CEPTON_EVENT_DETACH CEPTON_EVENT_FRAME
        error_code sensor_handle sensor_information_ptr sensor_event
  | call_get_sensor_points_publisher sensor_name =>
      get_sensor_points_publisher sensor_name ;; ret tt
  end.

Fixpoint calls (cs : list Call) : M (F:=F) unit :=
  match cs with
  | [] => ret tt
  | c :: cs' => call c ;; calls cs'
  end.
End Calls.

Arguments Call : clear implicits.

(** ** The channel of a key *)
Section Channels.
Context {F : Type}.

(** The channel the members hold for a key, if any: the combined channel
    when sensors are combined, the registry's entry otherwise. *)
Definition channel_of (st : DriverNodelet) (key : string)
  : option Publisher :=
  if combine_sensors st then Some (combined_points_publisher st)
  else sensor_points_publishers st !! key.

(** How many times a log shows a channel being created on a topic. *)
Definition creations_on (topic : string) (log : list (Event F)) : nat :=
  length (filter (fun pub => pub_topic pub = topic) (advertised log)).
End Channels.

(** ** Sample values *)

Definition sample_information : CeptonSensorInformation :=
  {| handle := 7; serial_number := 1001;
     model_name := "HR80T"; firmware_version := "1.0" |}.

Definition sample_sdk (sensor_handle : N) : option CeptonSensorInformation :=
  if (sensor_handle =? 7)%N then Some sample_information else None.

Definition sample_nodelet (combine : bool) : DriverNodelet :=
  {| node_handle := if combine then 2 else 1;
     combine_sensors := combine;
     output_namespace := "cepton";
     sensor_information_publisher :=
       {| pub_id := 1; pub_topic := "cepton_sensor_information";
          pub_queue_size := 2 |};
     combined_points_publisher :=
       if combine
       then {| pub_id := 2; pub_topic := "cepton_points";
               pub_queue_size := 2 |}
       else {| pub_id := 0; pub_topic := ""; pub_queue_size := 0 |};
     sensor_points_publishers := ∅ |}.

Definition sample_point (t : N) (ret_number : N) : CeptonSensorPoint Z :=
  {| timestamp := t; x := 1%Z; y := 2%Z; z := 3%Z; intensity := 1%Z;
     return_number := ret_number; valid := 1 |}.

Definition sample_image_point (ret_number valid_flag : N)
  : CeptonSensorImagePoint R :=
  {| ip_timestamp := 100; image_x := 0%R; distance := 2%R; image_z := 0%R;
     ip_intensity := 1%R;
     ip_return_number := ret_number; ip_valid := valid_flag |}.

(** A batch of [2^32] equal points. *)
Definition oversized_batch : list (CeptonSensorPoint Z) :=
  repeat (sample_point 100 0) (N.to_nat (2 ^ 32)).

(** Two sensors, three batches. *)
Definition two_sensors_sdk (sensor_handle : N)
  : option CeptonSensorInformation :=
  if (sensor_handle =? 7)%N then Some sample_information
  else if (sensor_handle =? 8)%N
  then Some {| handle := 8; serial_number := 1002;
               model_name := "HR80T"; firmware_version := "1.0" |}
  else None.

Definition two_batches : list (Call Z) :=
  [call_on_receive two_sensors_sdk 0 7 [sample_point 100 0];
   call_on_receive two_sensors_sdk 0 8 [sample_point 200 0];
   call_on_receive two_sensors_sdk 0 7 [sample_point 300 0]].

Definition topics_and_stamps (log : list (Event Z)) : list (string * N) :=
  map (fun pc => (pub_topic (fst pc), stamp (header (snd pc))))
      (published_points log).

(** ** The compiled transform ([cepton_sdk_util.hpp])

    [create] subtracts and uses the literal 2 besides the operations of
    [FloatArith]. *)
Class FloatArithSub (F : Type) `{FloatArith F} := {
  f_sub : F -> F -> F;
  f_two : F                  (* the literal 2, converted to float *)
}.

#[export] Instance R_arith_sub : FloatArithSub R := {|
  f_sub := Rminus;
  f_two := 2%R
|}.

Module CompiledTransform.
Section Transform.
Context {F : Type} `{FloatArithSub F}.

(** The private members of [class CompiledTransform]. *)
Record t := {
  translation : F * F * F;
  rotation_m00 : F; rotation_m01 : F; rotation_m02 : F;
  rotation_m10 : F; rotation_m11 : F; rotation_m12 : F;
  rotation_m20 : F; rotation_m21 : F; rotation_m22 : F
}.

(** [CompiledTransform::create]: [translation] points to three floats and
    [rotation] to four, the quaternion (x, y, z, w). *)
Definition create (translation : F * F * F) (rotation : F * F * F * F) : t :=
  let '(qx, qy, qz, qw) := rotation in
  let xx := f_mul qx qx in
  let xy := f_mul qx qy in
  let xz := f_mul qx qz in
  let xw := f_mul qx qw in
  let yy := f_mul qy qy in
  let yz := f_mul qy qz in
  let yw := f_mul qy qw in
  let zz := f_mul qz qz in
  let zw := f_mul qz qw in
  {| translation := translation;
     rotation_m00 := f_sub f_one (f_mul f_two (f_add yy zz));
     rotation_m01 := f_mul f_two (f_sub xy zw);
     rotation_m02 := f_mul f_two (f_add xz yw);
     rotation_m10 := f_mul f_two (f_add xy zw);
     rotation_m11 := f_sub f_one (f_mul f_two (f_add xx zz));
     rotation_m12 := f_mul f_two (f_sub yz xw);
     rotation_m20 := f_mul f_two (f_sub xz yw);
     rotation_m21 := f_mul f_two (f_add yz xw);
     rotation_m22 := f_sub f_one (f_mul f_two (f_add xx yy)) |}.

(** [CompiledTransform::apply]: the three references are read into
    temporaries before any of them is written; the new values are
    returned. *)
Definition apply (transform : t) (point : F * F * F) : F * F * F :=
  let '(px, py, pz) := point in
  let '(t0, t1, t2) := translation transform in
  let x_tmp :=
    f_add (f_add (f_mul px (rotation_m00 transform))
                 (f_mul py (rotation_m01 transform)))
          (f_mul pz (rotation_m02 transform)) in
  let y_tmp :=
    f_add (f_add (f_mul px (rotation_m10 transform))
                 (f_mul py (rotation_m11 transform)))
          (f_mul pz (rotation_m12 transform)) in
  let z_tmp :=
    f_add (f_add (f_mul px (rotation_m20 transform))
                 (f_mul py (rotation_m21 transform)))
          (f_mul pz (rotation_m22 transform)) in
  let x_tmp := f_add x_tmp t0 in
  let y_tmp := f_add y_tmp t1 in
  let z_tmp := f_add z_tmp t2 in
  (x_tmp, y_tmp, z_tmp).
End Transform.

Arguments t : clear implicits.
End CompiledTransform.

(** Distance between two points, and a unit quaternion, over the reals. *)
Definition distance_between (p q : R * R * R) : R :=
  let '(px, py, pz) := p in
  let '(qx, qy, qz) := q in
  sqrt ((px - qx) ^ 2 + (py - qy) ^ 2 + (pz - qz) ^ 2)%R.

Definition unit_quaternion (rotation : R * R * R * R) : Prop :=
  let '(qx, qy, qz, qw) := rotation in
  (qx * qx + qy * qy + qz * qz + qw * qw = 1)%R.

(** The columns of the rotation matrix are orthonormal. *)
Definition orthonormal (transform : CompiledTransform.t R) : Prop :=
  let m00 := CompiledTransform.rotation_m00 transform in
  let m01 := CompiledTransform.rotation_m01 transform in
  let m02 := CompiledTransform.rotation_m02 transform in
  let m10 := CompiledTransform.rotation_m10 transform in
  let m11 := CompiledTransform.rotation_m11 transform in
  let m12 := CompiledTransform.rotation_m12 transform in
  let m20 := CompiledTransform.rotation_m20 transform in
  let m21 := CompiledTransform.rotation_m21 transform in
  let m22 := CompiledTransform.rotation_m22 transform in
  (m00 * m00 + m10 * m10 + m20 * m20 = 1)%R /\
  (m01 * m01 + m11 * m11 + m21 * m21 = 1)%R /\
  (m02 * m02 + m12 * m12 + m22 * m22 = 1)%R /\
  (m00 * m01 + m10 * m11 + m20 * m21 = 0)%R /\
  (m00 * m02 + m10 * m12 + m20 * m22 = 0)%R /\
  (m01 * m02 + m11 * m12 + m21 * m22 = 0)%R.

(** The determinant of the rotation matrix. *)
Definition determinant (transform : CompiledTransform.t R) : R :=
  let m00 := CompiledTransform.rotation_m00 transform in
  let m01 := CompiledTransform.rotation_m01 transform in
  let m02 := CompiledTransform.rotation_m02 transform in
  let m10 := CompiledTransform.rotation_m10 transform in
  let m11 := CompiledTransform.rotation_m11 transform in
  let m12 := CompiledTransform.rotation_m12 transform in
  let m20 := CompiledTransform.rotation_m20 transform in
  let m21 := CompiledTransform.rotation_m21 transform in
  let m22 := CompiledTransform.rotation_m22 transform in
  (m00 * (m11 * m22 - m12 * m21) - m01 * (m10 * m22 - m12 * m20) +
   m02 * (m10 * m21 - m11 * m20))%R.

(** ** [enum CeptonSensorErrorCode] ([cepton_sdk.h]) *)
Inductive CeptonSensorErrorCode :=
| CEPTON_SUCCESS
| CEPTON_ERROR_GENERIC
| CEPTON_ERROR_OUT_OF_MEMORY
| CEPTON_ERROR_SENSOR_NOT_FOUND
| CEPTON_ERROR_SDK_VERSION_MISMATCH
| CEPTON_ERROR_COMMUNICATION
| CEPTON_ERROR_TOO_MANY_CALLBACKS
| CEPTON_ERROR_INVALID_ARGUMENTS
| CEPTON_ERROR_ALREADY_INITIALIZED
| CEPTON_ERROR_NOT_INITIALIZED
| CEPTON_ERROR_INVALID_FILE_TYPE
| CEPTON_ERROR_FILE_IO
| CEPTON_ERROR_CORRUPT_FILE
| CEPTON_ERROR_NOT_OPEN
| CEPTON_ERROR_EOF
| CEPTON_FAULT_INTERNAL
| CEPTON_FAULT_EXTREME_TEMPERATURE
| CEPTON_FAULT_EXTREME_HUMIDITY
| CEPTON_FAULT_EXTREME_ACCELERATION
| CEPTON_FAULT_ABNORMAL_FOV
| CEPTON_FAULT_ABNORMAL_FRAME_RATE
| CEPTON_FAULT_MOTOR_MALFUNCTION
| CEPTON_FAULT_LASER_MALFUNCTION
| CEPTON_FAULT_DETECTOR_MALFUNCTION.

(** The integer an enumerator stands for. *)
Definition error_code_value (e : CeptonSensorErrorCode) : Z :=
  match e with
  | CEPTON_SUCCESS => 0
  | CEPTON_ERROR_GENERIC => -1
  | CEPTON_ERROR_OUT_OF_MEMORY => -2
  | CEPTON_ERROR_SENSOR_NOT_FOUND => -4
  | CEPTON_ERROR_SDK_VERSION_MISMATCH => -5
  | CEPTON_ERROR_COMMUNICATION => -6
  | CEPTON_ERROR_TOO_MANY_CALLBACKS => -7
  | CEPTON_ERROR_INVALID_ARGUMENTS => -8
  | CEPTON_ERROR_ALREADY_INITIALIZED => -9
  | CEPTON_ERROR_NOT_INITIALIZED => -10
  | CEPTON_ERROR_INVALID_FILE_TYPE => -11
  | CEPTON_ERROR_FILE_IO => -12
  | CEPTON_ERROR_CORRUPT_FILE => -13
  | CEPTON_ERROR_NOT_OPEN => -14
  | CEPTON_ERROR_EOF => -15
  | CEPTON_FAULT_INTERNAL => -1000
  | CEPTON_FAULT_EXTREME_TEMPERATURE => -1001
  | CEPTON_FAULT_EXTREME_HUMIDITY => -1002
  | CEPTON_FAULT_EXTREME_ACCELERATION => -1003
  | CEPTON_FAULT_ABNORMAL_FOV => -1004
  | CEPTON_FAULT_ABNORMAL_FRAME_RATE => -1005
  | CEPTON_FAULT_MOTOR_MALFUNCTION => -1006
  | CEPTON_FAULT_LASER_MALFUNCTION => -1007
  | CEPTON_FAULT_DETECTOR_MALFUNCTION => -1008
  end%Z.

(** ** [DriverNodelet::onInit] *)

(** The private parameters as [onInit] finds them: each one is set or
    not. *)
Record Params := {
  capture_path_param : option string;
  combine_sensors_param : option bool;
  output_namespace_param : option string
}.

(** [private_node_handle.param(name, variable, default)]: the parameter's
    value when it is set, the default otherwise. *)
Definition param {A : Type} (value : option A) (default : A) : A :=
  match value with
  | Some v => v
  | None => default
  end.

(** What the driver and the SDK answer when [onInit] calls them:
    [driver.initialize], [cepton_sdk_capture_replay_open] on a path, and
    [cepton_sdk_capture_replay_resume]. *)
Record SetupAnswers := {
  driver_initialize : bool;
  cepton_sdk_capture_replay_open : string -> Z;
  cepton_sdk_capture_replay_resume : Z
}.

Section Setup.
Context {F : Type}.
Local Open Scope nodelet_scope.

(** Assignments to the members [onInit] writes. *)
Definition set_combine_sensors (value : bool) : M (F:=F) unit := fun st =>
  Some (tt,
        {| node_handle := node_handle st;
           combine_sensors := value;
           output_namespace := output_namespace st;
           sensor_information_publisher := sensor_information_publisher st;
           combined_points_publisher := combined_points_publisher st;
           sensor_points_publishers := sensor_points_publishers st |},
        []).

Definition set_output_namespace (value : string) : M (F:=F) unit := fun st =>
  Some (tt,
        {| node_handle := node_handle st;
           combine_sensors := combine_sensors st;
           output_namespace := value;
           sensor_information_publisher := sensor_information_publisher st;
           combined_points_publisher := combined_points_publisher st;
           sensor_points_publishers := sensor_points_publishers st |},
        []).

Definition set_sensor_information_publisher (pub : Publisher)
  : M (F:=F) unit := fun st =>
  Some (tt,
        {| node_handle := node_handle st;
           combine_sensors := combine_sensors st;
           output_namespace := output_namespace st;
           sensor_information_publisher := pub;
           combined_points_publisher := combined_points_publisher st;
           sensor_points_publishers := sensor_points_publishers st |},
        []).

Definition set_combined_points_publisher (pub : Publisher)
  : M (F:=F) unit := fun st =>
  Some (tt,
        {| node_handle := node_handle st;
           combine_sensors := combine_sensors st;
           output_namespace := output_namespace st;
           sensor_information_publisher := sensor_information_publisher st;
           combined_points_publisher := pub;
           sensor_points_publishers := sensor_points_publishers st |},
        []).

(** [NODELET_FATAL("... failed: %s!", error_code)] with [int error_code]:
    the [%s] conversion is handed an [int], which is undefined behaviour
    of the formatted print. *)
Definition NODELET_FATAL_string_of_int (format : string) (error_code : Z)
  : M (F:=F) unit := fun _ => None.

(** [DriverNodelet::onInit].  The node handles are the nodelet's own; the
    callbacks handed to [driver.initialize] are [on_receive] and
    [on_event]. *)
Definition onInit (params : Params) (answers : SetupAnswers)
  : M (F:=F) unit :=
  let capture_path := param (capture_path_param params) "" in
  combine_default <- read combine_sensors ;;
  set_combine_sensors
    (param (combine_sensors_param params) combine_default) ;;
  namespace_default <- read output_namespace ;;
  set_output_namespace
    (param (output_namespace_param params) namespace_default) ;;
  ns <- read output_namespace ;;
  let sensor_information_topic_id := ns +:+ "_sensor_information" in
  pub <- advertise sensor_information_topic_id 2 ;;
  set_sensor_information_publisher pub ;;
  combine <- read combine_sensors ;;
  (if combine
   then
     topic <- get_sensor_points_topic_id "" ;;
     pub <- advertise topic 2 ;;
     set_combined_points_publisher pub
   else ret tt) ;;
  if negb (driver_initialize answers) then ret tt
  else if String.eqb capture_path "" then ret tt
  else
    let error_code := cepton_sdk_capture_replay_open answers capture_path in
    if negb (error_code =? error_code_value CEPTON_SUCCESS)%Z
    then NODELET_FATAL_string_of_int
           "opening capture replay failed: %s!" error_code
    else
      let error_code := cepton_sdk_capture_replay_resume answers in
      if negb (error_code =? error_code_value CEPTON_SUCCESS)%Z
      then NODELET_FATAL_string_of_int
             "resuming capture replay failed: %s!" error_code
      else ret tt.
End Setup.

(** The members of a nodelet before [onInit]: the publishers are
    default-constructed and the registry is empty.  The initial values of
    [combine_sensors] and [output_namespace] are declared outside the
    sources and are parameters, as is the number of channels the node has
    advertised so far. *)
Definition constructed (advertised_so_far : N) (combine_default : bool)
    (namespace_default : string) : DriverNodelet :=
  {| node_handle := advertised_so_far;
     combine_sensors := combine_default;
     output_namespace := namespace_default;
     sensor_information_publisher :=
       {| pub_id := 0; pub_topic := ""; pub_queue_size := 0 |};
     combined_points_publisher :=
       {| pub_id := 0; pub_topic := ""; pub_queue_size := 0 |};
     sensor_points_publishers := ∅ |}.

(** The setups on which [onInit] reaches no [NODELET_FATAL]: the driver
    does not initialize, or no capture is to be replayed, or the capture
    opens and resumes. *)
Definition setup_ok (params : Params) (answers : SetupAnswers) : Prop :=
  driver_initialize answers = false \/
  param (capture_path_param params) "" = ""%string \/
  cepton_sdk_capture_replay_open answers
    (param (capture_path_param params) "") = 0%Z /\
  cepton_sdk_capture_replay_resume answers = 0%Z.

(** ** The registry of a running nodelet *)

(** Every entry of the registry is the channel of its key: it is named
    [<namespace>_points_<key>], has a queue of 10, and was made by an
    [advertise] call of this node that no other entry was made by. *)
Definition registry_well_formed (st : DriverNodelet) : Prop :=
  (forall key pub,
     sensor_points_publishers st !! key = Some pub ->
     pub_topic pub = output_namespace st +:+ "_points_" +:+ key /\
     pub_queue_size pub = 10%N /\
     (0 < pub_id pub <= node_handle st)%N) /\
  (forall key1 key2 pub1 pub2,
     sensor_points_publishers st !! key1 = Some pub1 ->
     sensor_points_publishers st !! key2 = Some pub2 ->
     pub_id pub1 = pub_id pub2 -> key1 = key2).

(** The sensor names a sequence of calls looks up. *)
Definition looked_up {F : Type} (c : Call F) : gset string :=
  match c with
  | call_on_receive sdk _ sensor_handle _ =>
      match sdk sensor_handle with
      | Some sensor_information => {[get_sensor_name sensor_information]}
      | None => ∅
      end
  | call_on_event _ _ _ _ => ∅
  | call_get_sensor_points_publisher sensor_name => {[sensor_name]}
  end.

Definition all_looked_up {F : Type} (cs : list (Call F)) : gset string :=
  ⋃ (map looked_up cs).

(** Sample setups. *)
Definition sample_params (combine : bool) : Params :=
  {| capture_path_param := None;
     combine_sensors_param := Some combine;
     output_namespace_param := Some "lidar"%string |}.

Definition sample_answers : SetupAnswers :=
  {| driver_initialize := true;
     cepton_sdk_capture_replay_open := fun _ => (-12)%Z;
     cepton_sdk_capture_replay_resume := 0%Z |}.

(** * Properties *)

(** ** Point conversion *)

Lemma convert_image_point_to_point_unfold {F : Type} `{FloatArith F}
    (image_x image_z distance : F) :
  convert_image_point_to_point image_x image_z distance =
  let h :=
    f_sqrt (f_add (f_add (f_mul image_x image_x) (f_mul image_z image_z))
                  f_one) in
  let ratio := f_div distance h in
  (f_mul (f_neg image_x) ratio, ratio, f_mul (f_neg image_z) ratio).
Proof. reflexivity. Qed.

Lemma hypotenuse_small_pos (image_x image_z : R) :
  (0 < sqrt (image_x * image_x + image_z * image_z + 1))%R.
Proof. apply sqrt_lt_R0. nra. Qed.

Lemma hypotenuse_small_sqr (image_x image_z : R) :
  (sqrt (image_x * image_x + image_z * image_z + 1) *
   sqrt (image_x * image_x + image_z * image_z + 1) =
   image_x * image_x + image_z * image_z + 1)%R.
Proof. apply sqrt_sqrt. nra. Qed.

Example convert_image_point_to_point_forward :
  convert_image_point_to_point 0%R 0%R 2%R = (0%R, 2%R, 0%R).
Proof.
  rewrite convert_image_point_to_point_unfold; simpl.
  replace (0 * 0 + 0 * 0 + 1)%R with 1%R by lra. rewrite sqrt_1.
  f_equal; [f_equal|]; lra.
Qed.

(** C3.  In every arithmetic, and for every triple [(image_x, image_z,
    distance)], [convert_image_point_to_point] computes
    [h = sqrt(image_x^2 + image_z^2 + 1)] and [ratio = distance / h] and
    returns [x = -image_x * ratio], [y = ratio], [z = -image_z * ratio];
    over the reals it is the contract [imageToCartesian_spec]. *)
Theorem C3_image_to_cartesian_contract :
  (forall (F : Type) (A : FloatArith F) (image_x image_z distance : F),
      exists h ratio : F,
        h = f_sqrt (f_add (f_add (square image_x) (square image_z)) f_one) /\
        ratio = f_div distance h /\
        convert_image_point_to_point image_x image_z distance =
        (f_mul (f_neg image_x) ratio, ratio, f_mul (f_neg image_z) ratio)) /\
  (forall image_x image_z distance : R,
      convert_image_point_to_point image_x image_z distance =
      imageToCartesian_spec image_x image_z distance).
Proof.
  split.
  - intros F A image_x image_z distance. eexists. eexists.
    split; [reflexivity|]. split; reflexivity.
  - intros image_x image_z distance.
    rewrite convert_image_point_to_point_unfold.
    unfold imageToCartesian_spec; simpl.
    replace (image_x * (image_x * 1) + image_z * (image_z * 1) + 1)%R
      with (image_x * image_x + image_z * image_z + 1)%R by ring.
    reflexivity.
Qed.

(** C7.  In exact arithmetic the converted point lies at the measured
    distance: for every triple with [0 <= distance], the point [(x, y, z)]
    returned by [convert_image_point_to_point] satisfies
    [sqrt (x^2 + y^2 + z^2) = distance]. *)
Theorem C7_distance_round_trip (image_x image_z distance : R) :
  (0 <= distance)%R ->
  forall px py pz : R,
    convert_image_point_to_point image_x image_z distance = (px, py, pz) ->
    sqrt (px ^ 2 + py ^ 2 + pz ^ 2) = distance.
Proof.
  intros Hd px py pz Hconv.
  rewrite convert_image_point_to_point_unfold in Hconv; simpl in Hconv.
  pose proof (hypotenuse_small_pos image_x image_z) as Hpos.
  pose proof (hypotenuse_small_sqr image_x image_z) as Hsqr.
  set (h := sqrt (image_x * image_x + image_z * image_z + 1)) in *.
  injection Hconv as <- <- <-.
  assert (Hsum : ((- image_x * (distance / h)) ^ 2 + (distance / h) ^ 2 +
                  (- image_z * (distance / h)) ^ 2 = distance ^ 2)%R).
  { transitivity ((distance / h) ^ 2 * (h * h))%R.
    - rewrite Hsqr. ring.
    - field. lra. }
  rewrite Hsum. replace (distance ^ 2)%R with (distance * distance)%R by ring.
  apply sqrt_square, Hd.
Qed.

Lemma C7_distance_round_trip_witness :
  (0 <= 2)%R /\
  convert_image_point_to_point 0%R 0%R 2%R = (0%R, 2%R, 0%R) /\
  sqrt (0 ^ 2 + 2 ^ 2 + 0 ^ 2) = 2%R.
Proof.
  split; [lra|]. split; [exact convert_image_point_to_point_forward|].
  apply (C7_distance_round_trip 0 0 2); [lra|].
  exact convert_image_point_to_point_forward.
Defined.

(** ** Sensor names and topic names *)

Example to_string_1001 : to_string 1001 = "1001"%string.
Proof. reflexivity. Qed.

Example to_string_zero : to_string 0 = "0"%string.
Proof. reflexivity. Qed.

Lemma decimal_value_from_acc (d : Decimal.uint) (acc : positive) :
  decimal_value_from (Npos acc) (NilEmpty.string_of_uint d) =
  Some (Npos (Pos.of_uint_acc d acc)).
Proof.
  revert acc.
  induction d as [|d IH|d IH|d IH|d IH|d IH|d IH|d IH|d IH|d IH|d IH];
    intros acc; [reflexivity|..];
    cbn [NilEmpty.string_of_uint decimal_value_from Pos.of_uint_acc];
    (replace (digit_value _) with (Some 0%N) by reflexivity) ||
    (replace (digit_value _) with (Some 1%N) by reflexivity) ||
    (replace (digit_value _) with (Some 2%N) by reflexivity) ||
    (replace (digit_value _) with (Some 3%N) by reflexivity) ||
    (replace (digit_value _) with (Some 4%N) by reflexivity) ||
    (replace (digit_value _) with (Some 5%N) by reflexivity) ||
    (replace (digit_value _) with (Some 6%N) by reflexivity) ||
    (replace (digit_value _) with (Some 7%N) by reflexivity) ||
    (replace (digit_value _) with (Some 8%N) by reflexivity) ||
    (replace (digit_value _) with (Some 9%N) by reflexivity);
    rewrite <- IH; f_equal; lia.
Qed.

Lemma decimal_value_from_zero (d : Decimal.uint) :
  decimal_value_from 0 (NilEmpty.string_of_uint d) = Some (Pos.of_uint d).
Proof.
  induction d as [|d IH|d IH|d IH|d IH|d IH|d IH|d IH|d IH|d IH|d IH];
    [reflexivity | exact IH | ..];
    cbn [NilEmpty.string_of_uint decimal_value_from Pos.of_uint];
    (replace (digit_value _) with (Some 1%N) by reflexivity) ||
    (replace (digit_value _) with (Some 2%N) by reflexivity) ||
    (replace (digit_value _) with (Some 3%N) by reflexivity) ||
    (replace (digit_value _) with (Some 4%N) by reflexivity) ||
    (replace (digit_value _) with (Some 5%N) by reflexivity) ||
    (replace (digit_value _) with (Some 6%N) by reflexivity) ||
    (replace (digit_value _) with (Some 7%N) by reflexivity) ||
    (replace (digit_value _) with (Some 8%N) by reflexivity) ||
    (replace (digit_value _) with (Some 9%N) by reflexivity);
    apply decimal_value_from_acc.
Qed.

Lemma to_uint_not_nil (n : N) : N.to_uint n <> Decimal.Nil.
Proof.
  destruct n as [|p]; [discriminate|].
  intros Hnil. pose proof (DecimalN.Unsigned.of_to (Npos p)) as Hback.
  rewrite Hnil in Hback. discriminate.
Qed.

Lemma decimal_value_to_string (n : N) : decimal_value (to_string n) = Some n.
Proof.
  unfold to_string, NilZero.string_of_uint.
  pose proof (to_uint_not_nil n) as Hnil.
  pose proof (DecimalN.Unsigned.of_to n) as Hback.
  destruct (N.to_uint n) as [|d|d|d|d|d|d|d|d|d|d] eqn:Hd;
    [congruence|..]; rewrite <- Hback;
    exact (decimal_value_from_zero _).
Qed.

(** ** The channel registry *)
Section Registry.
Context {F : Type}.
Implicit Types (st : DriverNodelet) (sensor_name : string).

Lemma get_sensor_points_publisher_combined st sensor_name :
  combine_sensors st = true ->
  get_sensor_points_publisher (F:=F) sensor_name st =
  Some (combined_points_publisher st, st, []).
Proof.
  intros Hc. unfold get_sensor_points_publisher, bind, read.
  rewrite Hc. reflexivity.
Qed.

Lemma get_sensor_points_publisher_cached st sensor_name pub :
  combine_sensors st = false ->
  sensor_points_publishers st !! sensor_name = Some pub ->
  get_sensor_points_publisher (F:=F) sensor_name st = Some (pub, st, []).
Proof.
  intros Hc Hpub. unfold get_sensor_points_publisher, bind, read.
  rewrite Hc, Hpub. cbn. rewrite Hpub. reflexivity.
Qed.

Lemma get_sensor_points_publisher_first st sensor_name :
  combine_sensors st = false ->
  sensor_points_publishers st !! sensor_name = None ->
  get_sensor_points_publisher (F:=F) sensor_name st =
  Some (created_publisher st sensor_name, after_creation st sensor_name,
        [ADVERTISE (created_publisher st sensor_name)]).
Proof.
  intros Hc Hpub.
  unfold get_sensor_points_publisher, get_sensor_points_topic_id,
    bind, read.
  rewrite Hc, Hpub. cbn. rewrite Hc. cbn.
  rewrite lookup_insert_eq. reflexivity.
Qed.
End Registry.

(** ** [on_receive], step by step *)
Section OnReceive.
Context {F : Type}.
Implicit Types (st : DriverNodelet) (points : list (CeptonSensorPoint F)).

Lemma get_sensor_points_publisher_total st (sensor_name : string) :
  exists pub st' creation,
    get_sensor_points_publisher (F:=F) sensor_name st =
    Some (pub, st', creation) /\
    (creation = [] /\ st' = st \/
     creation = [ADVERTISE pub] /\ st' = after_creation st sensor_name /\
     pub = created_publisher st sensor_name /\
     combine_sensors st = false /\
     sensor_points_publishers st !! sensor_name = None).
Proof.
  destruct (combine_sensors st) eqn:Hc.
  - eexists _, _, _. split.
    + apply get_sensor_points_publisher_combined, Hc.
    + left. split; reflexivity.
  - destruct (sensor_points_publishers st !! sensor_name) as [pub|] eqn:Hpub.
    + eexists _, _, _. split.
      * apply get_sensor_points_publisher_cached; eassumption.
      * left. split; reflexivity.
    + eexists _, _, _. split.
      * apply get_sensor_points_publisher_first; assumption.
      * right. repeat split; reflexivity.
Qed.

Lemma bind_run {A B : Type} (m : M (F:=F) A) (k : A -> M (F:=F) B)
    st a st1 log1 :
  m st = Some (a, st1, log1) ->
  bind m k st =
  match k a st1 with
  | None => None
  | Some (b, st2, log2) => Some (b, st2, log1 ++ log2)
  end.
Proof. intros Hm. unfold bind. rewrite Hm. reflexivity. Qed.

Lemma bind_undefined {A B : Type} (m : M (F:=F) A) (k : A -> M (F:=F) B)
    st :
  m st = None -> bind m k st = None.
Proof. intros Hm. unfold bind. rewrite Hm. reflexivity. Qed.

Lemma warn_run (format : string) (error_code : Z) st :
  (if (error_code <? 0)%Z
   then emit (NODELET_WARN format error_code)
   else ret tt) st =
  Some (tt, st,
        if (error_code <? 0)%Z
        then [NODELET_WARN (F:=F) format error_code] else []).
Proof. destruct (error_code <? 0)%Z; reflexivity. Qed.

Lemma get_sensor_frame_id_run st (sensor_name : string) :
  get_sensor_frame_id (F:=F) sensor_name st =
  Some (frame_id_of st sensor_name, st, []).
Proof.
  unfold get_sensor_frame_id, frame_id_of, bind, read.
  destruct (combine_sensors st); reflexivity.
Qed.

Lemma get_sensor_points_topic_id_run st (sensor_name : string) :
  get_sensor_points_topic_id (F:=F) sensor_name st =
  Some (if combine_sensors st then output_namespace st +:+ "_points"
        else output_namespace st +:+ "_points_" +:+ sensor_name, st, []).
Proof.
  unfold get_sensor_points_topic_id, bind, read.
  destruct (combine_sensors st); reflexivity.
Qed.

Lemma publish_sensor_information_run st sensor_information :
  publish_sensor_information (F:=F) sensor_information st =
  Some (tt, st,
        [PUBLISH_INFORMATION (sensor_information_publisher st)
           (information_message sensor_information)]).
Proof. reflexivity. Qed.

Lemma on_receive_run sdk error_code sensor_handle points st
    sensor_information pub st' creation :
  sdk sensor_handle = Some sensor_information ->
  get_sensor_points_publisher (F:=F) (get_sensor_name sensor_information) st
    = Some (pub, st', creation) ->
  on_receive sdk error_code sensor_handle points st =
  Some (tt, st',
        (if (error_code <? 0)%Z
         then [NODELET_WARN "on_receive failed: %i" error_code] else []) ++
        PUBLISH_INFORMATION (sensor_information_publisher st)
          (information_message sensor_information) ::
        creation ++
        [PUBLISH_POINTS pub
           (convert_to_point_cloud
              (frame_id_of st (get_sensor_name sensor_information))
              points)]).
Proof.
  intros Hsdk Hpub. unfold on_receive.
  rewrite (bind_run _ _ _ _ _ _ (warn_run _ _ _)).
  rewrite Hsdk.
  rewrite (bind_run (deref (Some sensor_information)) _ st
             sensor_information st [] eq_refl).
  rewrite (bind_run _ _ _ _ _ _ (publish_sensor_information_run _ _)).
  rewrite (bind_run _ _ _ _ _ _ (get_sensor_frame_id_run _ _)).
  rewrite (bind_run _ _ _ _ _ _ Hpub).
  reflexivity.
Qed.

Lemma on_receive_undefined sdk error_code sensor_handle points st :
  sdk sensor_handle = None ->
  on_receive sdk error_code sensor_handle points st = None.
Proof.
  intros Hsdk. unfold on_receive.
  rewrite (bind_run _ _ _ _ _ _ (warn_run _ _ _)).
  rewrite Hsdk. reflexivity.
Qed.

(** What the log of a call shows. *)
Lemma on_receive_publishes sdk error_code sensor_handle points st
    sensor_information :
  sdk sensor_handle = Some sensor_information ->
  exists pub st' log,
    on_receive sdk error_code sensor_handle points st = Some (tt, st', log) /\
    published_points log =
      [(pub, convert_to_point_cloud
               (frame_id_of st (get_sensor_name sensor_information))
               points)] /\
    published_information log =
      [(sensor_information_publisher st,
        information_message sensor_information)] /\
    warnings log =
      (if (error_code <? 0)%Z
       then [("on_receive failed: %i"%string, error_code)] else []).
Proof.
  intros Hsdk.
  destruct (get_sensor_points_publisher_total st
              (get_sensor_name sensor_information))
    as (pub & st' & creation & Hpub & Hshape).
  exists pub, st'. eexists. split.
  - apply on_receive_run; eassumption.
  - unfold published_points, published_information, warnings.
    rewrite !omap_app.
    destruct Hshape as [[-> _] | [-> _]];
      destruct (error_code <? 0)%Z; repeat split; reflexivity.
Qed.

(** *** The frame timestamp: the first loop *)

Lemma fold_max_shift points (a : N) :
  fold_left (fun message_timestamp cepton_point =>
               N.max message_timestamp (timestamp cepton_point)) points a =
  N.max a (message_timestamp_of points).
Proof.
  unfold message_timestamp_of. revert a.
  induction points as [|p points IH]; intros a; cbn [fold_left].
  - lia.
  - rewrite (IH (N.max a (timestamp p))), (IH (N.max 0 (timestamp p))). lia.
Qed.

Lemma message_timestamp_of_cons (p : CeptonSensorPoint F) points :
  message_timestamp_of (p :: points) =
  N.max (timestamp p) (message_timestamp_of points).
Proof.
  unfold message_timestamp_of at 1. cbn [fold_left].
  rewrite fold_max_shift. lia.
Qed.

Lemma message_timestamp_of_upper_bound points :
  Forall (fun p => (timestamp p <= message_timestamp_of points)%N) points.
Proof.
  induction points as [|p points IH]; [constructor|].
  rewrite message_timestamp_of_cons. constructor; [lia|].
  eapply Forall_impl; [exact IH|]. cbn. intros q Hq. lia.
Qed.

Lemma message_timestamp_of_attained points :
  points <> [] ->
  exists p, p ∈ points /\ timestamp p = message_timestamp_of points.
Proof.
  induction points as [|p points IH]; [congruence|]. intros _.
  rewrite message_timestamp_of_cons.
  destruct points as [|q points].
  - exists p. split; [left|]. cbn. lia.
  - destruct IH as (r & Hr & Heq); [discriminate|].
    destruct (N.max_spec (timestamp p) (message_timestamp_of (q :: points)))
      as [[_ ->] | [_ ->]].
    + exists r. split; [right; exact Hr | exact Heq].
    + exists p. split; [left | reflexivity].
Qed.

Lemma message_timestamp_of_permutation points points' :
  points ≡ₚ points' ->
  message_timestamp_of points = message_timestamp_of points'.
Proof.
  induction 1 as [|p l l' _ IH|p q l|l l' l'' _ IH1 _ IH2].
  - reflexivity.
  - rewrite !message_timestamp_of_cons, IH. reflexivity.
  - rewrite !message_timestamp_of_cons. lia.
  - congruence.
Qed.

(** *** The points and the counters: the second loop *)

Lemma fold_push_point (batch : list (CeptonSensorPoint F))
    (cloud : CeptonPointCloud F) :
  (width cloud < 2 ^ 32)%N ->
  fold_left push_point batch cloud =
  {| header := header cloud;
     points := points cloud ++ map pcl_point_of batch;
     width := ((width cloud + N.of_nat (length batch)) mod 2 ^ 32)%N;
     height := height cloud |}.
Proof.
  revert cloud. induction batch as [|p batch IH]; intros cloud Hw.
  - cbn [fold_left map length]. rewrite app_nil_r, N.add_0_r.
    rewrite N.mod_small by exact Hw. destruct cloud; reflexivity.
  - cbn [fold_left]. rewrite IH.
    + cbn [push_point header points width height map length].
      rewrite <- app_assoc. cbn [app]. f_equal.
      unfold uint32_incr. rewrite N.Div0.add_mod_idemp_l. f_equal. lia.
    + cbn. unfold uint32_incr. apply N.mod_lt. discriminate.
Qed.

Lemma convert_to_point_cloud_shape (frame : string)
    (batch : list (CeptonSensorPoint F)) :
  convert_to_point_cloud frame batch =
  {| header := {| stamp := message_timestamp_of batch; frame_id := frame |};
     points := map pcl_point_of batch;
     width := (N.of_nat (length batch) mod 2 ^ 32)%N;
     height := 1 |}.
Proof.
  unfold convert_to_point_cloud. rewrite fold_push_point.
  - reflexivity.
  - cbn. lia.
Qed.
End OnReceive.

(** ** Frames published by [on_receive] *)

(** C1.  Whenever the engine has a snapshot for the handle, [on_receive]
    publishes one frame whose timestamp is the maximum of the batch's
    timestamps: no point of the batch is later, and some point of a
    non-empty batch has exactly that timestamp.  An empty batch gives a
    frame with timestamp 0, no points, width 0 and height 1.  Any reordering
    of the batch gives a frame with the same timestamp. *)
Theorem C1_frame_timestamp {F : Type}
    (sdk : N -> option CeptonSensorInformation) (error_code : Z)
    (sensor_handle : N) (batch : list (CeptonSensorPoint F))
    (st : DriverNodelet) (sensor_information : CeptonSensorInformation) :
  sdk sensor_handle = Some sensor_information ->
  exists pub st' log cloud,
    on_receive sdk error_code sensor_handle batch st = Some (tt, st', log) /\
    published_points log = [(pub, cloud)] /\
    Forall (fun p => (timestamp p <= stamp (header cloud))%N) batch /\
    (batch <> [] ->
     exists p, p ∈ batch /\ timestamp p = stamp (header cloud)) /\
    (batch = [] ->
     stamp (header cloud) = 0%N /\ points cloud = [] /\
     width cloud = 0%N /\ height cloud = 1%N) /\
    (forall batch', batch' ≡ₚ batch ->
       exists pub' st'' log' cloud',
         on_receive sdk error_code sensor_handle batch' st =
           Some (tt, st'', log') /\
         published_points log' = [(pub', cloud')] /\
         stamp (header cloud') = stamp (header cloud)).
Proof.
  intros Hsdk.
  destruct (on_receive_publishes sdk error_code sensor_handle batch st _ Hsdk)
    as (pub & st' & log & Hrun & Hpoints & _).
  exists pub, st', log. eexists. split; [exact Hrun|].
  split; [exact Hpoints|].
  rewrite convert_to_point_cloud_shape. cbn [header stamp points width height].
  split; [apply message_timestamp_of_upper_bound|].
  split; [apply message_timestamp_of_attained|].
  split.
  - intros ->. repeat split; reflexivity.
  - intros batch' Hperm.
    destruct (on_receive_publishes sdk error_code sensor_handle batch' st _
                Hsdk) as (pub' & st'' & log' & Hrun' & Hpoints' & _).
    exists pub', st'', log'. eexists. split; [exact Hrun'|].
    split; [exact Hpoints'|].
    rewrite convert_to_point_cloud_shape. cbn [header stamp].
    apply message_timestamp_of_permutation, Hperm.
Qed.

Lemma C1_frame_timestamp_witness :
  sample_sdk 7 = Some sample_information /\
  exists pub st' log cloud,
    on_receive sample_sdk 0 7 [sample_point 100 0; sample_point 250 1]
      (sample_nodelet false) = Some (tt, st', log) /\
    published_points log = [(pub, cloud)] /\
    Forall (fun p => (timestamp p <= stamp (header cloud))%N)
      [sample_point 100 0; sample_point 250 1].
Proof.
  split; [reflexivity|].
  destruct (C1_frame_timestamp sample_sdk 0 7
              [sample_point 100 0; sample_point 250 1]
              (sample_nodelet false) sample_information eq_refl)
    as (pub & st' & log & cloud & Hrun & Hpoints & Hmax & _).
  exists pub, st', log, cloud. repeat split; assumption.
Defined.

Example on_receive_frame_timestamp_250 :
  (fun r => match r with
            | Some (_, _, log) =>
                map (fun pc => stamp (header (snd pc))) (published_points log)
            | None => []
            end)
    (on_receive sample_sdk 0 7 [sample_point 100 0; sample_point 250 1]
       (sample_nodelet false)) = [250%N].
Proof. vm_compute. reflexivity. Qed.

(** C9.  [on_receive] dereferences the snapshot pointer it gets from the
    engine without testing it: its behaviour is defined exactly when the
    engine returns a snapshot for the handle, whatever the error code, the
    batch and the members are. *)
Theorem C9_snapshot_precondition {F : Type}
    (sdk : N -> option CeptonSensorInformation) (error_code : Z)
    (sensor_handle : N) (batch : list (CeptonSensorPoint F))
    (st : DriverNodelet) :
  is_Some (on_receive sdk error_code sensor_handle batch st) <->
  is_Some (sdk sensor_handle).
Proof.
  destruct (sdk sensor_handle) as [sensor_information|] eqn:Hsdk.
  - destruct (on_receive_publishes sdk error_code sensor_handle batch st _
                Hsdk) as (pub & st' & log & Hrun & _).
    rewrite Hrun. split; intros _; eexists; reflexivity.
  - rewrite (on_receive_undefined sdk error_code sensor_handle batch st Hsdk).
    split; intros [? Hsome]; discriminate Hsome.
Qed.

(** C4.  Whenever the engine has a snapshot for the handle, every call of
    [on_receive], whatever its error code, publishes one sensor information
    notice, built from the snapshot, and one frame holding a point for each
    point of the batch; a warning is logged exactly when the error code is
    negative. *)
Theorem C4_receive_always_publishes {F : Type}
    (sdk : N -> option CeptonSensorInformation) (error_code : Z)
    (sensor_handle : N) (batch : list (CeptonSensorPoint F))
    (st : DriverNodelet) (sensor_information : CeptonSensorInformation) :
  sdk sensor_handle = Some sensor_information ->
  exists pub st' log cloud,
    on_receive sdk error_code sensor_handle batch st = Some (tt, st', log) /\
    published_information log =
      [(sensor_information_publisher st,
        {| msg_handle := handle sensor_information;
           msg_serial_number := serial_number sensor_information;
           msg_model_name := model_name sensor_information;
           msg_firmware_version := firmware_version sensor_information |})] /\
    published_points log = [(pub, cloud)] /\
    length (points cloud) = length batch /\
    ((error_code < 0)%Z ->
     warnings log = [("on_receive failed: %i"%string, error_code)]) /\
    ((0 <= error_code)%Z -> warnings log = []).
Proof.
  intros Hsdk.
  destruct (on_receive_publishes sdk error_code sensor_handle batch st _ Hsdk)
    as (pub & st' & log & Hrun & Hpoints & Hinfo & Hwarn).
  exists pub, st', log. eexists. split; [exact Hrun|].
  split; [exact Hinfo|]. split; [exact Hpoints|].
  rewrite convert_to_point_cloud_shape. cbn [points].
  split; [apply length_map|].
  rewrite Hwarn. split; intros Hcode.
  - apply Z.ltb_lt in Hcode. rewrite Hcode. reflexivity.
  - apply Z.ltb_ge in Hcode. rewrite Hcode. reflexivity.
Qed.

Lemma C4_receive_always_publishes_witness :
  sample_sdk 7 = Some sample_information /\
  exists pub st' log cloud,
    on_receive sample_sdk (-6) 7 [sample_point 100 0]
      (sample_nodelet true) = Some (tt, st', log) /\
    published_information log =
      [(sensor_information_publisher (sample_nodelet true),
        {| msg_handle := 7; msg_serial_number := 1001;
           msg_model_name := "HR80T"; msg_firmware_version := "1.0" |})] /\
    published_points log = [(pub, cloud)] /\
    length (points cloud) = 1 /\
    warnings log = [("on_receive failed: %i"%string, (-6)%Z)].
Proof.
  split; [reflexivity|].
  destruct (C4_receive_always_publishes sample_sdk (-6) 7
              [sample_point 100 0] (sample_nodelet true)
              sample_information eq_refl)
    as (pub & st' & log & cloud & Hrun & Hinfo & Hpoints & Hlen & Hwarn & _).
  exists pub, st', log, cloud.
  split; [exact Hrun|]. split; [exact Hinfo|]. split; [exact Hpoints|].
  split; [exact Hlen|]. apply Hwarn. reflexivity.
Defined.

(** C10, as the code has it.  Whenever the engine has a snapshot for the
    handle, the cloud [on_receive] publishes has height 1 and stores one
    point for each point of the batch; its width, a 32-bit counter
    incremented once per point, is the number of points modulo [2^32], and
    so equals the number of points stored for every batch of fewer than
    [2^32] points. *)
Theorem C10_cloud_counters {F : Type}
    (sdk : N -> option CeptonSensorInformation) (error_code : Z)
    (sensor_handle : N) (batch : list (CeptonSensorPoint F))
    (st : DriverNodelet) (sensor_information : CeptonSensorInformation) :
  sdk sensor_handle = Some sensor_information ->
  exists pub st' log cloud,
    on_receive sdk error_code sensor_handle batch st = Some (tt, st', log) /\
    published_points log = [(pub, cloud)] /\
    height cloud = 1%N /\
    length (points cloud) = length batch /\
    width cloud = (N.of_nat (length (points cloud)) mod 2 ^ 32)%N /\
    ((N.of_nat (length batch) < 2 ^ 32)%N ->
     width cloud = N.of_nat (length (points cloud))).
Proof.
  intros Hsdk.
  destruct (on_receive_publishes sdk error_code sensor_handle batch st _ Hsdk)
    as (pub & st' & log & Hrun & Hpoints & _).
  exists pub, st', log. eexists. split; [exact Hrun|].
  split; [exact Hpoints|].
  rewrite convert_to_point_cloud_shape. cbn [points width height].
  rewrite length_map. repeat split.
  intros Hsmall. apply N.mod_small, Hsmall.
Qed.

Lemma C10_cloud_counters_witness :
  sample_sdk 7 = Some sample_information /\
  exists pub st' log cloud,
    on_receive sample_sdk 0 7 [sample_point 100 0; sample_point 250 1]
      (sample_nodelet false) = Some (tt, st', log) /\
    published_points log = [(pub, cloud)] /\
    height cloud = 1%N /\
    length (points cloud) = 2 /\
    width cloud = N.of_nat (length (points cloud)).
Proof.
  split; [reflexivity|].
  destruct (C10_cloud_counters sample_sdk 0 7
              [sample_point 100 0; sample_point 250 1]
              (sample_nodelet false) sample_information eq_refl)
    as (pub & st' & log & cloud & Hrun & Hpoints & Hh & Hlen & _ & Hw).
  exists pub, st', log, cloud.
  split; [exact Hrun|]. split; [exact Hpoints|]. split; [exact Hh|].
  split; [exact Hlen|]. apply Hw. reflexivity.
Defined.

Lemma oversized_batch_length :
  N.of_nat (length oversized_batch) = (2 ^ 32)%N.
Proof.
  unfold oversized_batch. rewrite repeat_length. apply N2Nat.id.
Qed.

(** C10 as stated fails on a batch of [2^32] points: the cloud published
    stores [2^32] points and its width has wrapped to 0. *)
Lemma C10_counterexample_width_wraps :
  exists pub st' log cloud,
    on_receive sample_sdk 0 7 oversized_batch (sample_nodelet false) =
      Some (tt, st', log) /\
    published_points log = [(pub, cloud)] /\
    N.of_nat (length (points cloud)) = (2 ^ 32)%N /\
    width cloud = 0%N /\
    width cloud <> N.of_nat (length (points cloud)).
Proof.
  destruct (on_receive_publishes sample_sdk 0 7 oversized_batch
              (sample_nodelet false) sample_information eq_refl)
    as (pub & st' & log & Hrun & Hpoints & _).
  exists pub, st', log. eexists. split; [exact Hrun|].
  split; [exact Hpoints|].
  rewrite convert_to_point_cloud_shape. cbn [points width].
  rewrite length_map, oversized_batch_length.
  split; [reflexivity|]. split; [reflexivity|]. discriminate.
Qed.

(** ** Conversion and frame assembly *)

Lemma convert_sensor_image_point_to_point_fields {F : Type} `{FloatArith F}
    (image_point : CeptonSensorImagePoint F) :
  let point := convert_sensor_image_point_to_point image_point in
  (x point, y point, z point) =
    convert_image_point_to_point (image_x image_point)
      (image_z image_point) (distance image_point) /\
  timestamp point = ip_timestamp image_point /\
  intensity point = ip_intensity image_point /\
  return_number point = ip_return_number image_point /\
  valid point = ip_valid image_point.
Proof.
  unfold convert_sensor_image_point_to_point.
  rewrite convert_image_point_to_point_unfold. cbn.
  repeat split; reflexivity.
Qed.

(** C2, as the code has it.  [convert_sensor_image_point_to_point] applies
    [convert_image_point_to_point] to a raw point and copies its timestamp,
    intensity, return index and validity flag.  [on_receive] applies no
    conversion and no transform: whenever the engine has a snapshot for the
    handle, the frame it publishes holds, in the order of the batch, one
    point for each point it was handed, with that point's timestamp, [x],
    [y], [z] and intensity.  So for a batch that is the conversion of raw
    points, the frame's points are, in order, the converted coordinates
    with the raw timestamps and intensities. *)
Theorem C2_frame_points {F : Type} `{FloatArith F}
    (sdk : N -> option CeptonSensorInformation) (error_code : Z)
    (sensor_handle : N) (batch : list (CeptonSensorPoint F))
    (st : DriverNodelet) (sensor_information : CeptonSensorInformation) :
  sdk sensor_handle = Some sensor_information ->
  (forall image_point : CeptonSensorImagePoint F,
     let point := convert_sensor_image_point_to_point image_point in
     (x point, y point, z point) =
       convert_image_point_to_point (image_x image_point)
         (image_z image_point) (distance image_point) /\
     timestamp point = ip_timestamp image_point /\
     intensity point = ip_intensity image_point /\
     return_number point = ip_return_number image_point /\
     valid point = ip_valid image_point) /\
  exists pub st' log cloud,
    on_receive sdk error_code sensor_handle batch st = Some (tt, st', log) /\
    published_points log = [(pub, cloud)] /\
    points cloud =
      map (fun cepton_point =>
             {| pcl_timestamp := timestamp cepton_point;
                pcl_x := x cepton_point;
                pcl_y := y cepton_point;
                pcl_z := z cepton_point;
                pcl_intensity := intensity cepton_point |}) batch /\
    (forall image_points : list (CeptonSensorImagePoint F),
       batch = map convert_sensor_image_point_to_point image_points ->
       Forall2
         (fun image_point pcl_point =>
            (pcl_x pcl_point, pcl_y pcl_point, pcl_z pcl_point) =
              convert_image_point_to_point (image_x image_point)
                (image_z image_point) (distance image_point) /\
            pcl_timestamp pcl_point = ip_timestamp image_point /\
            pcl_intensity pcl_point = ip_intensity image_point)
         image_points (points cloud)).
Proof.
  intros Hsdk. split; [apply convert_sensor_image_point_to_point_fields|].
  destruct (on_receive_publishes sdk error_code sensor_handle batch st _ Hsdk)
    as (pub & st' & log & Hrun & Hpoints & _).
  exists pub, st', log. eexists. split; [exact Hrun|].
  split; [exact Hpoints|].
  rewrite convert_to_point_cloud_shape. cbn [points].
  split; [reflexivity|].
  intros image_points ->. clear Hrun Hpoints. rewrite map_map.
  induction image_points as [|image_point image_points IH]; cbn [map].
  - constructor.
  - constructor; [|exact IH].
    destruct (convert_sensor_image_point_to_point_fields image_point)
      as (Hxyz & Ht & Hi & _).
    unfold pcl_point_of; cbn [pcl_x pcl_y pcl_z pcl_timestamp pcl_intensity].
    repeat split; assumption.
Qed.

Lemma C2_frame_points_witness :
  sample_sdk 7 = Some sample_information /\
  exists pub st' log cloud,
    on_receive (F:=R) sample_sdk 0 7
      (map convert_sensor_image_point_to_point [sample_image_point 0 1])
      (sample_nodelet false) = Some (tt, st', log) /\
    published_points log = [(pub, cloud)] /\
    Forall2
      (fun image_point pcl_point =>
         (pcl_x pcl_point, pcl_y pcl_point, pcl_z pcl_point) =
           convert_image_point_to_point (image_x image_point)
             (image_z image_point) (distance image_point) /\
         pcl_timestamp pcl_point = ip_timestamp image_point /\
         pcl_intensity pcl_point = ip_intensity image_point)
      [sample_image_point 0 1] (points cloud).
Proof.
  split; [reflexivity|].
  destruct (C2_frame_points (F:=R) sample_sdk 0 7
              (map convert_sensor_image_point_to_point
                 [sample_image_point 0 1])
              (sample_nodelet false) sample_information eq_refl)
    as (_ & pub & st' & log & cloud & Hrun & Hpoints & _ & Hconv).
  exists pub, st', log, cloud.
  split; [exact Hrun|]. split; [exact Hpoints|].
  apply Hconv. reflexivity.
Defined.

(** C2 as stated fails: the frame does not keep the return metadata.  Two
    raw points that differ in their return index and validity flag, once
    converted, make [on_receive] publish the very same frame. *)
Lemma C2_counterexample_return_metadata_dropped :
  (ip_return_number (sample_image_point 0 1),
   ip_valid (sample_image_point 0 1)) <>
  (ip_return_number (sample_image_point 1 0),
   ip_valid (sample_image_point 1 0)) /\
  is_Some (on_receive (F:=R) sample_sdk 0 7
             [convert_sensor_image_point_to_point (sample_image_point 0 1)]
             (sample_nodelet false)) /\
  on_receive (F:=R) sample_sdk 0 7
    [convert_sensor_image_point_to_point (sample_image_point 0 1)]
    (sample_nodelet false) =
  on_receive (F:=R) sample_sdk 0 7
    [convert_sensor_image_point_to_point (sample_image_point 1 0)]
    (sample_nodelet false).
Proof.
  split; [cbn; congruence|].
  destruct (get_sensor_points_publisher_total (F:=R) (sample_nodelet false)
              (get_sensor_name sample_information))
    as (pub & st' & creation & Hpub & _).
  rewrite !(on_receive_run sample_sdk 0 7 _ (sample_nodelet false)
              sample_information pub st' creation eq_refl Hpub).
  split; [eexists; reflexivity|].
  rewrite !convert_to_point_cloud_shape. reflexivity.
Qed.

(** C6.  The name of a sensor is the decimal string of its serial number:
    it is [std::to_string] of it, a string of digits that reads back as the
    serial number.  The points topic of a sensor is [<namespace>_points]
    when sensors are combined and [<namespace>_points_<sensor name>] when
    they are not; computing it changes no member and has no effect. *)
Theorem C6_sensor_name_and_points_topic {F : Type}
    (sensor_information : CeptonSensorInformation) (st : DriverNodelet) :
  get_sensor_name sensor_information =
    to_string (serial_number sensor_information) /\
  decimal_value (get_sensor_name sensor_information) =
    Some (serial_number sensor_information) /\
  get_sensor_points_topic_id (F:=F) (get_sensor_name sensor_information) st =
    Some (if combine_sensors st
          then output_namespace st +:+ "_points"
          else output_namespace st +:+ "_points_" +:+
               get_sensor_name sensor_information,
          st, []).
Proof.
  split; [reflexivity|]. split.
  - apply decimal_value_to_string.
  - apply get_sensor_points_topic_id_run.
Qed.

Example points_topic_per_sensor :
  get_sensor_points_topic_id (F:=Z) (get_sensor_name sample_information)
    (sample_nodelet false) =
  Some ("cepton_points_1001"%string, sample_nodelet false, []).
Proof. reflexivity. Qed.

Example points_topic_combined :
  get_sensor_points_topic_id (F:=Z) (get_sensor_name sample_information)
    (sample_nodelet true) =
  Some ("cepton_points"%string, sample_nodelet true, []).
Proof. reflexivity. Qed.

(** ** Events *)

(** C8.  Let the three event constants be distinct, as the labels of a
    [switch] are, and let the snapshot pointer be non-null whenever the error
    code is not negative (it is not read otherwise).  Then every call of
    [on_event], whatever the error code and the event kind, leaves every
    member as it was, creates no channel and publishes nothing.  With a
    negative error code all it does is log the failure; on a frame event
    without error it does nothing at all. *)
Theorem C8_on_event_frame_effect {F : Type}
    (CEPTON_EVENT_ATTACH CEPTON_EVENT_DETACH CEPTON_EVENT_FRAME : Z)
    (error_code : Z) (sensor_handle : N)
    (sensor_information_ptr : option CeptonSensorInformation)
    (sensor_event : Z) (st : DriverNodelet) :
  CEPTON_EVENT_ATTACH <> CEPTON_EVENT_FRAME ->
  CEPTON_EVENT_DETACH <> CEPTON_EVENT_FRAME ->
  ((0 <= error_code)%Z -> is_Some sensor_information_ptr) ->
  exists log : list (Event F),
    on_event CEPTON_EVENT_ATTACH CEPTON_EVENT_DETACH CEPTON_EVENT_FRAME
      error_code sensor_handle sensor_information_ptr sensor_event st =
      Some (tt, st, log) /\
    advertised log = [] /\
    published_points log = [] /\
    published_information log = [] /\
    ((error_code < 0)%Z ->
     log = [NODELET_WARN "on_event failed: %i" error_code]) /\
    ((0 <= error_code)%Z -> sensor_event = CEPTON_EVENT_FRAME -> log = []).
Proof.
  intros Hattach Hdetach Hptr. unfold on_event.
  destruct (error_code <? 0)%Z eqn:Hcode.
  - apply Z.ltb_lt in Hcode. eexists. split; [reflexivity|].
    repeat split; try reflexivity. intros Hok. lia.
  - apply Z.ltb_ge in Hcode. destruct (Hptr Hcode) as [info ->].
    unfold bind, deref.
    destruct (sensor_event =? CEPTON_EVENT_ATTACH)%Z eqn:Ha;
      [|destruct (sensor_event =? CEPTON_EVENT_DETACH)%Z eqn:Hd;
        [|destruct (sensor_event =? CEPTON_EVENT_FRAME)%Z eqn:Hf]];
      (eexists; split; [reflexivity|]);
      (repeat split; try reflexivity; intros; lia).
Qed.

Lemma C8_on_event_frame_effect_witness :
  (1 <> 3)%Z /\ (2 <> 3)%Z /\
  exists log : list (Event Z),
    on_event 1 2 3 0 7 (Some sample_information) 3 (sample_nodelet false) =
      Some (tt, sample_nodelet false, log) /\
    advertised log = [] /\
    published_points log = [] /\
    published_information log = [] /\
    log = [].
Proof.
  split; [discriminate|]. split; [discriminate|].
  destruct (C8_on_event_frame_effect (F:=Z) 1 2 3 0 7
              (Some sample_information) 3 (sample_nodelet false))
    as (log & Hrun & Hadv & Hpts & Hinfo & _ & Hframe).
  - discriminate.
  - discriminate.
  - intros _. eexists. reflexivity.
  - exists log. repeat split; try assumption.
    apply Hframe; [discriminate | reflexivity].
Defined.

Example on_event_attach_logs :
  on_event (F:=Z) 1 2 3 0 7 (Some sample_information) 1
    (sample_nodelet false) =
  Some (tt, sample_nodelet false,
        [NODELET_INFO "sensor connected: %s" "1001"]).
Proof. reflexivity. Qed.

Example on_event_unknown_kind :
  on_event (F:=Z) 1 2 3 0 7 (Some sample_information) 42
    (sample_nodelet false) = Some (tt, sample_nodelet false, []).
Proof. reflexivity. Qed.

Example on_event_error_drops :
  on_event (F:=Z) 1 2 3 (-6) 7 None 1 (sample_nodelet false) =
  Some (tt, sample_nodelet false,
        [NODELET_WARN "on_event failed: %i" (-6)]).
Proof. reflexivity. Qed.

(** ** The registry over the nodelet's life *)
Section RegistryLife.
Context {F : Type}.
Variables CEPTON_EVENT_ATTACH CEPTON_EVENT_DETACH CEPTON_EVENT_FRAME : Z.
Implicit Types (st : DriverNodelet) (key : string) (log : list (Event F)).

Local Abbreviation run_call :=
  (call (F:=F) CEPTON_EVENT_ATTACH CEPTON_EVENT_DETACH CEPTON_EVENT_FRAME).
Local Abbreviation run_calls :=
  (calls (F:=F) CEPTON_EVENT_ATTACH CEPTON_EVENT_DETACH CEPTON_EVENT_FRAME).

Lemma bind_inv {A B : Type} (m : M (F:=F) A) (k : A -> M (F:=F) B)
    st b st2 log :
  bind m k st = Some (b, st2, log) ->
  exists a st1 log1 log2,
    m st = Some (a, st1, log1) /\ k a st1 = Some (b, st2, log2) /\
    log = log1 ++ log2.
Proof.
  unfold bind. destruct (m st) as [[[a st1] log1]|]; [|discriminate].
  destruct (k a st1) as [[[b' st2'] log2]|] eqn:Hk; [|discriminate].
  intros [= <- <- <-]. exists a, st1, log1, log2.
  split; [reflexivity|]. split; [exact Hk | reflexivity].
Qed.

Lemma advertised_app log1 log2 :
  advertised (log1 ++ log2) = advertised log1 ++ advertised log2.
Proof. apply omap_app. Qed.

(** A lookup either touches nothing or creates the key's channel. *)
Lemma lookup_step st key pub st' log :
  get_sensor_points_publisher (F:=F) key st = Some (pub, st', log) ->
  log = [] /\ st' = st /\ channel_of st key = Some pub \/
  log = [ADVERTISE pub] /\ st' = after_creation st key /\
  pub = created_publisher st key /\
  combine_sensors st = false /\ sensor_points_publishers st !! key = None.
Proof.
  intros Hrun. unfold channel_of.
  destruct (combine_sensors st) eqn:Hc.
  - rewrite (get_sensor_points_publisher_combined st key Hc) in Hrun.
    injection Hrun as <- <- <-. left. repeat split.
  - destruct (sensor_points_publishers st !! key) as [pub0|] eqn:Hpub.
    + rewrite (get_sensor_points_publisher_cached st key pub0 Hc Hpub)
        in Hrun.
      injection Hrun as <- <- <-. left. repeat split.
    + rewrite (get_sensor_points_publisher_first st key Hc Hpub) in Hrun.
      injection Hrun as <- <- <-. right. repeat split.
Qed.

(** Every call either leaves the members alone and creates nothing, or
    is the first lookup of some key and creates its channel. *)
Lemma call_step (c : Call F) st st' log :
  run_call c st = Some (tt, st', log) ->
  st' = st /\ advertised log = [] \/
  exists name,
    combine_sensors st = false /\
    sensor_points_publishers st !! name = None /\
    st' = after_creation st name /\
    advertised log = [created_publisher st name].
Proof.
  destruct c as [sdk error_code sensor_handle batch
                | error_code sensor_handle ptr sensor_event
                | name]; cbn [call].
  - intros Hrun.
    destruct (sdk sensor_handle) as [info|] eqn:Hsdk;
      [|rewrite on_receive_undefined in Hrun by exact Hsdk; discriminate].
    destruct (get_sensor_points_publisher_total (F:=F) st
                (get_sensor_name info))
      as (pub & st1 & creation & Hpub & _).
    rewrite (on_receive_run sdk error_code sensor_handle batch st info
               pub st1 creation Hsdk Hpub) in Hrun.
    injection Hrun as <- <-.
    assert (Hadv : forall l : list (Event F),
               advertised
                 ((if (error_code <? 0)%Z
                   then [NODELET_WARN "on_receive failed: %i" error_code]
                   else []) ++
                  PUBLISH_INFORMATION (sensor_information_publisher st)
                    (information_message info) ::
                  creation ++ l) = advertised creation ++ advertised l).
    { intros l. rewrite advertised_app.
      destruct (error_code <? 0)%Z; cbn; apply advertised_app. }
    rewrite Hadv. cbn [advertised omap list_omap]. rewrite app_nil_r.
    destruct (lookup_step _ _ _ _ _ Hpub)
      as [(-> & -> & _) | (-> & -> & -> & Hc & Hnone)].
    + left. split; reflexivity.
    + right. exists (get_sensor_name info). repeat split; assumption.
  - unfold on_event. intros Hrun.
    destruct (error_code <? 0)%Z.
    + injection Hrun as <- <-. left. split; reflexivity.
    + destruct ptr as [info|]; [|discriminate].
      unfold bind, deref in Hrun.
      destruct (sensor_event =? CEPTON_EVENT_ATTACH)%Z;
        [|destruct (sensor_event =? CEPTON_EVENT_DETACH)%Z;
          [|destruct (sensor_event =? CEPTON_EVENT_FRAME)%Z]];
        injection Hrun as <- <-; left; split; reflexivity.
  - intros Hrun. apply bind_inv in Hrun.
    destruct Hrun as (pub & st1 & log1 & log2 & Hpub & Hret & ->).
    injection Hret as <- <-. rewrite app_nil_r.
    destruct (lookup_step _ _ _ _ _ Hpub)
      as [(-> & -> & _) | (-> & -> & -> & Hc & Hnone)].
    + left. split; reflexivity.
    + right. exists name. repeat split; assumption.
Qed.

(** Once the members hold a channel for a key, a lookup returns it and
    touches nothing. *)
Lemma lookup_settled st key pub :
  channel_of st key = Some pub ->
  get_sensor_points_publisher (F:=F) key st = Some (pub, st, []).
Proof.
  unfold channel_of. destruct (combine_sensors st) eqn:Hc; intros Hch.
  - injection Hch as <-. apply get_sensor_points_publisher_combined, Hc.
  - apply get_sensor_points_publisher_cached; assumption.
Qed.

Lemma points_topic_inj (ns name key : string) :
  ns +:+ "_points_" +:+ name = ns +:+ "_points_" +:+ key -> name = key.
Proof.
  intros Heq. apply (inj (String.app ns)) in Heq.
  apply (inj (String.app "_points_")) in Heq. exact Heq.
Qed.

Lemma creations_on_app (topic : string) log1 log2 :
  creations_on topic (log1 ++ log2) =
  creations_on topic log1 + creations_on topic log2.
Proof.
  unfold creations_on. rewrite advertised_app, filter_app, length_app.
  reflexivity.
Qed.

Lemma creations_on_none (topic : string) log :
  Forall (fun pub => pub_topic pub <> topic) (advertised log) ->
  creations_on topic log = 0.
Proof.
  unfold creations_on. induction 1 as [|pub pubs Hne _ IH]; [reflexivity|].
  rewrite filter_cons_False by exact Hne. exact IH.
Qed.

(** A channel the members hold survives every sequence of calls, and no
    call creates a channel for its key again. *)
Lemma calls_settled (cs : list (Call F)) :
  forall st key pub st' log,
    channel_of st key = Some pub ->
    run_calls cs st = Some (tt, st', log) ->
    channel_of st' key = Some pub /\
    output_namespace st' = output_namespace st /\
    (forall k p, sensor_points_publishers st !! k = Some p ->
                 sensor_points_publishers st' !! k = Some p) /\
    Forall (fun p => pub_topic p <>
                     output_namespace st +:+ "_points_" +:+ key)
           (advertised log) /\
    (advertised log = [] -> st' = st).
Proof.
  induction cs as [|c cs IH]; intros st key pub st' log Hch Hrun.
  - injection Hrun as <- <-. repeat split; auto.
  - cbn [calls] in Hrun. apply bind_inv in Hrun.
    destruct Hrun as ([] & st1 & log1 & log2 & Hcall & Hrest & ->).
    rewrite advertised_app.
    destruct (call_step _ _ _ _ Hcall)
      as [(-> & ->) | (name & Hc & Hnone & -> & ->)].
    + exact (IH st key pub st' log2 Hch Hrest).
    + assert (Hne : name <> key).
      { intros ->. unfold channel_of in Hch. rewrite Hc in Hch. congruence. }
      assert (Hch1 : channel_of (after_creation st name) key = Some pub).
      { unfold channel_of in *. cbn. rewrite Hc in *.
        rewrite lookup_insert_ne by exact Hne. exact Hch. }
      destruct (IH _ key pub st' log2 Hch1 Hrest)
        as (Hch' & Hns & Hkeep & Hfresh & _).
      cbn [after_creation output_namespace sensor_points_publishers] in *.
      split; [exact Hch'|]. split; [exact Hns|]. split; [|split].
      * intros k p Hk. apply Hkeep. rewrite lookup_insert_ne; [exact Hk|].
        intros ->. congruence.
      * constructor; [|exact Hfresh]. cbn.
        intros Heq. apply Hne. exact (points_topic_inj _ _ _ Heq).
      * discriminate.
Qed.

(** Over any sequence of calls, from any values of the members, a channel
    is created at most once on the topic of a key. *)
Lemma creations_at_most_once (cs : list (Call F)) :
  forall st key st' log,
    run_calls cs st = Some (tt, st', log) ->
    creations_on (output_namespace st +:+ "_points_" +:+ key) log <= 1.
Proof.
  induction cs as [|c cs IH]; intros st key st' log Hrun.
  - injection Hrun as <- <-. cbn. lia.
  - cbn [calls] in Hrun. apply bind_inv in Hrun.
    destruct Hrun as ([] & st1 & log1 & log2 & Hcall & Hrest & ->).
    rewrite creations_on_app.
    destruct (call_step _ _ _ _ Hcall)
      as [(-> & Hadv) | (name & Hc & Hnone & -> & Hadv)].
    + rewrite (creations_on_none _ log1) by (rewrite Hadv; constructor).
      exact (IH st key st' log2 Hrest).
    + destruct (decide (name = key)) as [->|Hne].
      * assert (Hch : channel_of (after_creation st key) key =
                      Some (created_publisher st key)).
        { unfold channel_of. cbn. rewrite Hc. apply lookup_insert_eq. }
        destruct (calls_settled cs _ key _ st' log2 Hch Hrest)
          as (_ & _ & _ & Hfresh & _).
        cbn [after_creation output_namespace] in Hfresh.
        rewrite (creations_on_none _ log2 Hfresh).
        unfold creations_on. rewrite Hadv.
        rewrite filter_cons_True by reflexivity. cbn. lia.
      * rewrite (creations_on_none _ log1).
        -- exact (IH (after_creation st name) key st' log2 Hrest).
        -- rewrite Hadv. constructor; [|constructor]. cbn.
           intros Heq. apply Hne. exact (points_topic_inj _ _ _ Heq).
Qed.

(** C5.  A lookup of a key creates its channel only when the members hold
    none for it, and then records it under the key; otherwise it returns the
    channel held and changes nothing.  From then on, through any sequence
    of calls of [on_receive], [on_event] and lookups, every lookup of the
    key returns that same channel and changes nothing, no channel is
    created for the key again, every entry of the registry stays as it is,
    and the members change only when a channel is created.  Over the whole
    life of the nodelet a channel is created at most once for a key. *)
Theorem C5_channel_created_once st key pub st1 creation :
  get_sensor_points_publisher (F:=F) key st = Some (pub, st1, creation) ->
  (creation = [] /\ st1 = st /\ channel_of st key = Some pub \/
   creation = [ADVERTISE pub] /\ channel_of st key = None /\
   pub_topic pub = output_namespace st +:+ "_points_" +:+ key /\
   sensor_points_publishers st1 =
     <[key := pub]> (sensor_points_publishers st)) /\
  (forall (cs : list (Call F)) st2 log,
     run_calls cs st1 = Some (tt, st2, log) ->
     get_sensor_points_publisher (F:=F) key st2 = Some (pub, st2, []) /\
     (forall k p, sensor_points_publishers st1 !! k = Some p ->
                  sensor_points_publishers st2 !! k = Some p) /\
     creations_on (output_namespace st +:+ "_points_" +:+ key) log = 0 /\
     (advertised log = [] -> st2 = st1)) /\
  (forall (cs : list (Call F)) st2 log,
     run_calls cs st = Some (tt, st2, log) ->
     creations_on (output_namespace st +:+ "_points_" +:+ key) log <= 1).
Proof.
  intros Hlookup.
  assert (Hch1 : channel_of st1 key = Some pub /\
                 output_namespace st1 = output_namespace st).
  { destruct (lookup_step _ _ _ _ _ Hlookup)
      as [(_ & -> & Hch) | (_ & -> & -> & Hc & _)].
    - split; [exact Hch | reflexivity].
    - split; [|reflexivity].
      unfold channel_of. cbn. rewrite Hc. apply lookup_insert_eq. }
  destruct Hch1 as [Hch1 Hns1].
  split; [|split].
  - destruct (lookup_step _ _ _ _ _ Hlookup)
      as [(-> & -> & Hch) | (-> & -> & -> & Hc & Hnone)].
    + left. repeat split. exact Hch.
    + right. split; [reflexivity|]. split; [|split; reflexivity].
      unfold channel_of. rewrite Hc. exact Hnone.
  - intros cs st2 log Hrun.
    destruct (calls_settled cs st1 key pub st2 log Hch1 Hrun)
      as (Hch2 & _ & Hkeep & Hfresh & Hsame).
    split; [apply lookup_settled, Hch2|]. split; [exact Hkeep|].
    split; [|exact Hsame].
    apply creations_on_none. rewrite <- Hns1. exact Hfresh.
  - intros cs st2 log Hrun.
    exact (creations_at_most_once cs st key st2 log Hrun).
Qed.
End RegistryLife.

(** A first lookup of "1001" in per-sensor mode, and every lookup after
    it. *)
Lemma C5_channel_created_once_witness :
  get_sensor_points_publisher (F:=Z) "1001" (sample_nodelet false) =
    Some (created_publisher (sample_nodelet false) "1001",
          after_creation (sample_nodelet false) "1001",
          [ADVERTISE (created_publisher (sample_nodelet false) "1001")]) /\
  forall (cs : list (Call Z)) st2 log,
    calls 1 2 3 cs (after_creation (sample_nodelet false) "1001") =
      Some (tt, st2, log) ->
    get_sensor_points_publisher (F:=Z) "1001" st2 =
      Some (created_publisher (sample_nodelet false) "1001", st2, []).
Proof.
  assert (Hfirst :
    get_sensor_points_publisher (F:=Z) "1001" (sample_nodelet false) =
    Some (created_publisher (sample_nodelet false) "1001",
          after_creation (sample_nodelet false) "1001",
          [ADVERTISE (created_publisher (sample_nodelet false) "1001")])).
  { apply get_sensor_points_publisher_first; reflexivity. }
  split; [exact Hfirst|].
  intros cs st2 log Hrun.
  destruct (C5_channel_created_once (F:=Z) 1 2 3 _ _ _ _ _ Hfirst)
    as (_ & Hlater & _).
  apply (Hlater cs st2 log Hrun).
Defined.

(** ** Two sensors, end to end *)

(** Per-sensor mode: a channel per serial number, created once; a frame
    and a sensor information notice per batch. *)
Example two_sensors_apart :
  match calls 1 2 3 two_batches (sample_nodelet false) with
  | Some (_, _, log) =>
      map pub_topic (advertised log) =
        ["cepton_points_1001"; "cepton_points_1002"]%string /\
      map (fun pm => msg_serial_number (snd pm)) (published_information log) =
        [1001%N; 1002%N; 1001%N] /\
      topics_and_stamps log =
        [("cepton_points_1001"%string, 100%N);
         ("cepton_points_1002"%string, 200%N);
         ("cepton_points_1001"%string, 300%N)]
  | None => False
  end.
Proof. vm_compute. repeat split; reflexivity. Qed.

(** Combined mode: no channel is created; the frames of both sensors go to
    the shared channel, one frame per batch. *)
Example two_sensors_combined :
  match calls 1 2 3 two_batches (sample_nodelet true) with
  | Some (_, _, log) =>
      advertised log = [] /\
      topics_and_stamps log =
        [("cepton_points"%string, 100%N);
         ("cepton_points"%string, 200%N);
         ("cepton_points"%string, 300%N)]
  | None => False
  end.
Proof. vm_compute. split; reflexivity. Qed.

(** * Further properties of the code *)

(** ** Image points, in exact arithmetic *)

Lemma hypotenuse_small_ge_1 (image_x image_z : R) :
  (1 <= sqrt (image_x * image_x + image_z * image_z + 1))%R.
Proof. rewrite <- sqrt_1 at 1. apply sqrt_le_1_alt. nra. Qed.

Lemma convert_norm_sqr (image_x image_z distance px py pz : R) :
  convert_image_point_to_point image_x image_z distance = (px, py, pz) ->
  (px ^ 2 + py ^ 2 + pz ^ 2 = distance ^ 2)%R.
Proof.
  intros Hconv.
  rewrite convert_image_point_to_point_unfold in Hconv; simpl in Hconv.
  pose proof (hypotenuse_small_pos image_x image_z) as Hpos.
  pose proof (hypotenuse_small_sqr image_x image_z) as Hsqr.
  set (h := sqrt (image_x * image_x + image_z * image_z + 1)) in *.
  injection Hconv as <- <- <-.
  transitivity ((distance / h) ^ 2 * (h * h))%R.
  - rewrite Hsqr. ring.
  - field. lra.
Qed.

Lemma convert_norm_abs (image_x image_z distance px py pz : R) :
  convert_image_point_to_point image_x image_z distance = (px, py, pz) ->
  sqrt (px ^ 2 + py ^ 2 + pz ^ 2) = Rabs distance.
Proof.
  intros Hconv. rewrite (convert_norm_sqr _ _ _ _ _ _ Hconv).
  replace (distance ^ 2)%R with (Rsqr distance) by (unfold Rsqr; ring).
  apply sqrt_Rsqr_abs.
Qed.

(** X1.  [convert_image_point_to_point] does not look at the sign of the
    distance: for every triple, also with a negative distance, the point
    it returns lies at the absolute value of the distance from the
    origin. *)
Theorem X1_point_at_absolute_distance (image_x image_z distance : R) :
  let '(px, py, pz) :=
    convert_image_point_to_point image_x image_z distance in
  sqrt (px ^ 2 + py ^ 2 + pz ^ 2) = Rabs distance.
Proof.
  destruct (convert_image_point_to_point image_x image_z distance)
    as [[px py] pz] eqn:Hconv.
  exact (convert_norm_abs _ _ _ _ _ _ Hconv).
Qed.

(** X2.  The image coordinates can be read back from the converted point:
    when the distance is not 0, [y] is not 0, [image_x = -x / y] and
    [image_z = -z / y]. *)
Theorem X2_image_coordinates_recovered
    (image_x image_z distance px py pz : R) :
  (distance <> 0)%R ->
  convert_image_point_to_point image_x image_z distance = (px, py, pz) ->
  (py <> 0 /\ - px / py = image_x /\ - pz / py = image_z)%R.
Proof.
  intros Hd Hconv.
  rewrite convert_image_point_to_point_unfold in Hconv; simpl in Hconv.
  pose proof (hypotenuse_small_pos image_x image_z) as Hpos.
  set (h := sqrt (image_x * image_x + image_z * image_z + 1)) in *.
  injection Hconv as <- <- <-.
  assert (Hy : (distance / h <> 0)%R).
  { unfold Rdiv. apply Rmult_integral_contrapositive_currified; [exact Hd|].
    apply Rinv_neq_0_compat. lra. }
  split; [exact Hy|]. split; field; split; lra.
Qed.

Lemma X2_image_coordinates_recovered_witness :
  (2 <> 0)%R /\
  convert_image_point_to_point 0%R 0%R 2%R = (0%R, 2%R, 0%R) /\
  (2 <> 0 /\ - 0 / 2 = 0 /\ - 0 / 2 = 0)%R.
Proof.
  split; [lra|]. split; [exact convert_image_point_to_point_forward|].
  apply (X2_image_coordinates_recovered 0 0 2 0 2 0); [lra|].
  exact convert_image_point_to_point_forward.
Defined.

(** X3.  [y] is the forward axis: for a positive distance, [y] is positive
    and at most the distance, and it equals the distance exactly for the
    image centre ([image_x = image_z = 0]). *)
Theorem X3_forward_component (image_x image_z distance px py pz : R) :
  (0 < distance)%R ->
  convert_image_point_to_point image_x image_z distance = (px, py, pz) ->
  (0 < py <= distance)%R /\
  (py = distance <-> image_x = 0%R /\ image_z = 0%R).
Proof.
  intros Hd Hconv.
  rewrite convert_image_point_to_point_unfold in Hconv; simpl in Hconv.
  pose proof (hypotenuse_small_pos image_x image_z) as Hpos.
  pose proof (hypotenuse_small_ge_1 image_x image_z) as Hge.
  pose proof (hypotenuse_small_sqr image_x image_z) as Hsqr.
  set (h := sqrt (image_x * image_x + image_z * image_z + 1)) in *.
  injection Hconv as _ <- _.
  assert (Hy : (distance / h * h = distance)%R) by (field; lra).
  split; [split|split].
  - apply Rdiv_lt_0_compat; lra.
  - assert (0 < distance / h)%R by (apply Rdiv_lt_0_compat; lra). nra.
  - intros Heq. rewrite Heq in Hy.
    assert (Hh : h = 1%R) by nra. rewrite Hh in Hsqr. split; nra.
  - intros [-> ->]. subst h.
    replace (0 * 0 + 0 * 0 + 1)%R with 1%R by ring. rewrite sqrt_1. field.
Qed.

Lemma X3_forward_component_witness :
  (0 < 2)%R /\
  convert_image_point_to_point 0%R 0%R 2%R = (0%R, 2%R, 0%R) /\
  (0 < 2 <= 2)%R.
Proof.
  split; [lra|]. split; [exact convert_image_point_to_point_forward|].
  apply (X3_forward_component 0 0 2 0 2 0); [lra|].
  exact convert_image_point_to_point_forward.
Defined.

(** X4.  The converted point scales with the distance: multiplying the
    distance by [k] multiplies [x], [y] and [z] by [k].  So a distance of
    0 gives the origin whatever the image coordinates are, and a negated
    distance gives the mirrored point. *)
Theorem X4_point_scales_with_distance (image_x image_z distance k : R) :
  convert_image_point_to_point image_x image_z (k * distance)%R =
  let '(px, py, pz) :=
    convert_image_point_to_point image_x image_z distance in
  (k * px, k * py, k * pz)%R.
Proof.
  rewrite !convert_image_point_to_point_unfold; simpl.
  pose proof (hypotenuse_small_pos image_x image_z) as Hpos.
  set (h := sqrt (image_x * image_x + image_z * image_z + 1)) in *.
  f_equal; [f_equal|]; field; lra.
Qed.

(** ** The compiled transform, in exact arithmetic *)

Lemma create_rotation_orthonormal (tr : R * R * R) (qx qy qz qw : R) :
  unit_quaternion (qx, qy, qz, qw) ->
  orthonormal (CompiledTransform.create tr (qx, qy, qz, qw)).
Proof.
  unfold unit_quaternion, orthonormal. intros Hn. cbn.
  repeat split.
  - transitivity (1 + 4 * (qy * qy + qz * qz) *
                      (qx * qx + qy * qy + qz * qz + qw * qw - 1))%R;
      [ring | rewrite Hn; ring].
  - transitivity (1 + 4 * (qx * qx + qz * qz) *
                      (qx * qx + qy * qy + qz * qz + qw * qw - 1))%R;
      [ring | rewrite Hn; ring].
  - transitivity (1 + 4 * (qx * qx + qy * qy) *
                      (qx * qx + qy * qy + qz * qz + qw * qw - 1))%R;
      [ring | rewrite Hn; ring].
  - transitivity (4 * (qx * qy) *
                  (1 - (qx * qx + qy * qy + qz * qz + qw * qw)))%R;
      [ring | rewrite Hn; ring].
  - transitivity (4 * (qx * qz) *
                  (1 - (qx * qx + qy * qy + qz * qz + qw * qw)))%R;
      [ring | rewrite Hn; ring].
  - transitivity (4 * (qy * qz) *
                  (1 - (qx * qx + qy * qy + qz * qz + qw * qw)))%R;
      [ring | rewrite Hn; ring].
Qed.

Lemma apply_isometry (transform : CompiledTransform.t R) (p q : R * R * R) :
  orthonormal transform ->
  distance_between (CompiledTransform.apply transform p)
                   (CompiledTransform.apply transform q) =
  distance_between p q.
Proof.
  destruct transform
    as [[[t0 t1] t2] m00 m01 m02 m10 m11 m12 m20 m21 m22].
  destruct p as [[px py] pz], q as [[qx qy] qz].
  unfold orthonormal, distance_between. cbn.
  intros (H00 & H11 & H22 & H01 & H02 & H12). f_equal.
  transitivity
    ((px - qx) ^ 2 * (m00 * m00 + m10 * m10 + m20 * m20) +
     (py - qy) ^ 2 * (m01 * m01 + m11 * m11 + m21 * m21) +
     (pz - qz) ^ 2 * (m02 * m02 + m12 * m12 + m22 * m22) +
     2 * (px - qx) * (py - qy) * (m00 * m01 + m10 * m11 + m20 * m21) +
     2 * (px - qx) * (pz - qz) * (m00 * m02 + m10 * m12 + m20 * m22) +
     2 * (py - qy) * (pz - qz) * (m01 * m02 + m11 * m12 + m21 * m22))%R;
    [ring|].
  rewrite H00, H11, H22, H01, H02, H12. ring.
Qed.

Lemma apply_vector_free (t0 t1 t2 qw px py pz : R) :
  CompiledTransform.apply
    (CompiledTransform.create (t0, t1, t2) (0, 0, 0, qw)%R) (px, py, pz) =
  (px + t0, py + t1, pz + t2)%R.
Proof. cbn. f_equal; [f_equal|]; ring. Qed.

Lemma distance_between_sqr (p q : R * R * R) :
  (distance_between p q * distance_between p q =
   let '(px, py, pz) := p in
   let '(qx, qy, qz) := q in
   (px - qx) ^ 2 + (py - qy) ^ 2 + (pz - qz) ^ 2)%R.
Proof.
  destruct p as [[px py] pz], q as [[qx qy] qz]. unfold distance_between.
  apply sqrt_sqrt.
  pose proof (pow2_ge_0 (px - qx)). pose proof (pow2_ge_0 (py - qy)).
  pose proof (pow2_ge_0 (pz - qz)). lra.
Qed.

(** X5.  A quaternion without vector part, [(0, 0, 0, w)] for any [w],
    also 0, compiles to the identity rotation: [apply] only adds the
    translation.  With [w = 1] and a zero translation [apply] is the
    identity. *)
Theorem X5_vector_free_quaternion_translates
    (t0 t1 t2 qw px py pz : R) :
  CompiledTransform.apply
    (CompiledTransform.create (t0, t1, t2) (0, 0, 0, qw)%R) (px, py, pz) =
  (px + t0, py + t1, pz + t2)%R /\
  CompiledTransform.apply
    (CompiledTransform.create (0, 0, 0)%R (0, 0, 0, 1)%R) (px, py, pz) =
  (px, py, pz).
Proof.
  split; [apply apply_vector_free|].
  rewrite apply_vector_free. f_equal; [f_equal|]; ring.
Qed.

(** X6.  [create] does not normalise the quaternion.  The transform it
    builds keeps all distances between points exactly when the quaternion
    has norm 1 or has no vector part; for any other quaternion [apply]
    changes some distance. *)
Theorem X6_rigid_iff_unit_or_vector_free (tr : R * R * R) (qx qy qz qw : R) :
  (forall p q : R * R * R,
     distance_between
       (CompiledTransform.apply
          (CompiledTransform.create tr (qx, qy, qz, qw)) p)
       (CompiledTransform.apply
          (CompiledTransform.create tr (qx, qy, qz, qw)) q) =
     distance_between p q) <->
  unit_quaternion (qx, qy, qz, qw) \/ qx = 0%R /\ qy = 0%R /\ qz = 0%R.
Proof.
  split.
  - intros Hiso.
    pose proof (f_equal (fun d => d * d)%R
                  (Hiso (1, 0, 0)%R (0, 0, 0)%R)) as Hx.
    pose proof (f_equal (fun d => d * d)%R
                  (Hiso (0, 1, 0)%R (0, 0, 0)%R)) as Hy.
    pose proof (f_equal (fun d => d * d)%R
                  (Hiso (0, 0, 1)%R (0, 0, 0)%R)) as Hz.
    cbv beta in Hx, Hy, Hz. rewrite !distance_between_sqr in Hx, Hy, Hz.
    destruct tr as [[t0 t1] t2]. cbn in Hx, Hy, Hz.
    unfold unit_quaternion.
    assert (Hx' : ((qy * qy + qz * qz) *
                   (qx * qx + qy * qy + qz * qz + qw * qw - 1) = 0)%R)
      by nra.
    assert (Hy' : ((qx * qx + qz * qz) *
                   (qx * qx + qy * qy + qz * qz + qw * qw - 1) = 0)%R)
      by nra.
    assert (Hz' : ((qx * qx + qy * qy) *
                   (qx * qx + qy * qy + qz * qz + qw * qw - 1) = 0)%R)
      by nra.
    destruct (Req_dec (qx * qx + qy * qy + qz * qz + qw * qw) 1)
      as [Hn|Hn]; [left; exact Hn | right].
    apply Rmult_integral in Hx', Hy', Hz'.
    destruct Hx' as [Hx'|Hx']; [|lra].
    destruct Hy' as [Hy'|Hy']; [|lra].
    destruct Hz' as [Hz'|Hz']; [|lra].
    repeat split; nra.
  - intros [Hunit | (-> & -> & ->)] p q.
    + apply apply_isometry, create_rotation_orthonormal, Hunit.
    + destruct tr as [[t0 t1] t2], p as [[px py] pz], q as [[qx qy] qz].
      rewrite !apply_vector_free. unfold distance_between. f_equal. ring.
Qed.

(** X7.  The conjugate quaternion undoes a unit quaternion: applying the
    transform of [(x, y, z, w)] with translation [t], subtracting [t], and
    applying the transform of [(-x, -y, -z, w)] without translation gives
    the point back. *)
Theorem X7_conjugate_inverts (t0 t1 t2 qx qy qz qw px py pz : R) :
  unit_quaternion (qx, qy, qz, qw) ->
  let '(ax, ay, az) :=
    CompiledTransform.apply
      (CompiledTransform.create (t0, t1, t2) (qx, qy, qz, qw))
      (px, py, pz) in
  CompiledTransform.apply
    (CompiledTransform.create (0, 0, 0)%R (- qx, - qy, - qz, qw)%R)
    (ax - t0, ay - t1, az - t2)%R = (px, py, pz).
Proof.
  intros Hunit.
  destruct (create_rotation_orthonormal (t0, t1, t2) qx qy qz qw Hunit)
    as (H00 & H11 & H22 & H01 & H02 & H12).
  cbn in *.
  f_equal; [f_equal|].
  - match type of H00 with ?c00 = _ =>
    match type of H01 with ?c01 = _ =>
    match type of H02 with ?c02 = _ =>
      transitivity (px * c00 + py * c01 + pz * c02)%R;
        [ring | rewrite H00, H01, H02; ring]
    end end end.
  - match type of H01 with ?c01 = _ =>
    match type of H11 with ?c11 = _ =>
    match type of H12 with ?c12 = _ =>
      transitivity (px * c01 + py * c11 + pz * c12)%R;
        [ring | rewrite H01, H11, H12; ring]
    end end end.
  - match type of H02 with ?c02 = _ =>
    match type of H12 with ?c12 = _ =>
    match type of H22 with ?c22 = _ =>
      transitivity (px * c02 + py * c12 + pz * c22)%R;
        [ring | rewrite H02, H12, H22; ring]
    end end end.
Qed.

Lemma X7_conjugate_inverts_witness :
  unit_quaternion (0, 0, 1, 0)%R /\
  let '(ax, ay, az) :=
    CompiledTransform.apply
      (CompiledTransform.create (5, 6, 7)%R (0, 0, 1, 0)%R)
      (1, 2, 3)%R in
  CompiledTransform.apply
    (CompiledTransform.create (0, 0, 0)%R (- 0, - 0, - 1, 0)%R)
    (ax - 5, ay - 6, az - 7)%R = (1, 2, 3)%R.
Proof.
  assert (Hunit : unit_quaternion (0, 0, 1, 0)%R) by (cbn; lra).
  split; [exact Hunit|].
  exact (X7_conjugate_inverts 5 6 7 0 0 1 0 1 2 3 Hunit).
Defined.

(** X8.  A quaternion and its negation compile to the same transform. *)
Theorem X8_negated_quaternion_same_transform
    (tr : R * R * R) (qx qy qz qw : R) :
  CompiledTransform.create tr (- qx, - qy, - qz, - qw)%R =
  CompiledTransform.create tr (qx, qy, qz, qw).
Proof. cbn. f_equal; ring. Qed.

(** X9.  For a unit quaternion the rotation matrix [create] builds has
    determinant 1: the transform turns and never mirrors. *)
Theorem X9_unit_quaternion_determinant (tr : R * R * R) (qx qy qz qw : R) :
  unit_quaternion (qx, qy, qz, qw) ->
  determinant (CompiledTransform.create tr (qx, qy, qz, qw)) = 1%R.
Proof.
  unfold unit_quaternion, determinant. cbn. intros Hn.
  transitivity (1 + 4 * (qx * qx + qy * qy + qz * qz + qw * qw - 1) *
                    (qx * qx + qy * qy + qz * qz))%R;
    [ring | rewrite Hn; ring].
Qed.

Lemma X9_unit_quaternion_determinant_witness :
  unit_quaternion (0, 0, 1, 0)%R /\
  determinant (CompiledTransform.create (5, 6, 7)%R (0, 0, 1, 0)%R) = 1%R.
Proof.
  assert (Hunit : unit_quaternion (0, 0, 1, 0)%R) by (cbn; lra).
  split; [exact Hunit|].
  exact (X9_unit_quaternion_determinant (5, 6, 7)%R 0 0 1 0 Hunit).
Defined.

(** X10.  Conversion and transform compose: a raw point converted by
    [convert_image_point_to_point] and then turned by the transform of a
    unit quaternion without translation still lies at the measured
    distance (its absolute value) from the origin. *)
Theorem X10_transformed_point_keeps_distance
    (qx qy qz qw image_x image_z distance : R) :
  unit_quaternion (qx, qy, qz, qw) ->
  let '(px, py, pz) :=
    CompiledTransform.apply
      (CompiledTransform.create (0, 0, 0)%R (qx, qy, qz, qw))
      (convert_image_point_to_point image_x image_z distance) in
  sqrt (px ^ 2 + py ^ 2 + pz ^ 2) = Rabs distance.
Proof.
  intros Hunit.
  destruct (convert_image_point_to_point image_x image_z distance)
    as [[cx cy] cz] eqn:Hconv.
  pose proof (apply_isometry _ (cx, cy, cz) (0, 0, 0)%R
                (create_rotation_orthonormal (0, 0, 0)%R qx qy qz qw Hunit))
    as Hiso.
  replace (CompiledTransform.apply
             (CompiledTransform.create (0, 0, 0)%R (qx, qy, qz, qw))
             (0, 0, 0)%R)
    with (0, 0, 0)%R in Hiso by (cbn; f_equal; [f_equal|]; ring).
  destruct (CompiledTransform.apply
              (CompiledTransform.create (0, 0, 0)%R (qx, qy, qz, qw))
              (cx, cy, cz)) as [[px py] pz].
  unfold distance_between in Hiso.
  rewrite <- (convert_norm_abs _ _ _ _ _ _ Hconv).
  etransitivity; [|etransitivity; [exact Hiso|]]; f_equal; ring.
Qed.

Lemma X10_transformed_point_keeps_distance_witness :
  unit_quaternion (0, 0, 1, 0)%R /\
  let '(px, py, pz) :=
    CompiledTransform.apply
      (CompiledTransform.create (0, 0, 0)%R (0, 0, 1, 0)%R)
      (convert_image_point_to_point 0%R 0%R 2%R) in
  sqrt (px ^ 2 + py ^ 2 + pz ^ 2) = Rabs 2.
Proof.
  assert (Hunit : unit_quaternion (0, 0, 1, 0)%R) by (cbn; lra).
  split; [exact Hunit|].
  exact (X10_transformed_point_keeps_distance 0 0 1 0 0 0 2 Hunit).
Defined.

(** ** The members over the nodelet's life *)
Section MembersLife.
Context {F : Type}.
Variables CEPTON_EVENT_ATTACH CEPTON_EVENT_DETACH CEPTON_EVENT_FRAME : Z.
Implicit Types (st : DriverNodelet) (log : list (Event F)).

Local Abbreviation run_call :=
  (call (F:=F) CEPTON_EVENT_ATTACH CEPTON_EVENT_DETACH CEPTON_EVENT_FRAME).
Local Abbreviation run_calls :=
  (calls (F:=F) CEPTON_EVENT_ATTACH CEPTON_EVENT_DETACH CEPTON_EVENT_FRAME).
Local Set Warnings "-clear-no-such-hyp".

Lemma published_points_app log1 log2 :
  published_points (log1 ++ log2) =
  published_points log1 ++ published_points log2.
Proof. apply omap_app. Qed.

Lemma calls_cons_inv (c : Call F) (cs : list (Call F)) st st' log :
  run_calls (c :: cs) st = Some (tt, st', log) ->
  exists st1 log1 log2,
    run_call c st = Some (tt, st1, log1) /\
    run_calls cs st1 = Some (tt, st', log2) /\ log = log1 ++ log2.
Proof.
  cbn [calls]. intros Hrun. apply bind_inv in Hrun.
  destruct Hrun as ([] & st1 & log1 & log2 & Hcall & Hrest & ->).
  exists st1, log1, log2. repeat split; assumption.
Qed.

(** X11.  No call of [on_receive], [on_event] or
    [get_sensor_points_publisher] ever changes [combine_sensors],
    [output_namespace], the sensor information publisher or the combined
    publisher; the only other change besides the registry is the count of
    advertised channels, which grows by the number of channels the calls
    created. *)
Theorem X11_configuration_never_changes (cs : list (Call F)) :
  forall st st' log,
    run_calls cs st = Some (tt, st', log) ->
    combine_sensors st' = combine_sensors st /\
    output_namespace st' = output_namespace st /\
    sensor_information_publisher st' = sensor_information_publisher st /\
    combined_points_publisher st' = combined_points_publisher st /\
    node_handle st' =
      (node_handle st + N.of_nat (length (advertised log)))%N.
Proof.
  induction cs as [|c cs IH]; intros st st' log Hrun.
  - injection Hrun as <- <-. cbn. repeat split. lia.
  - apply calls_cons_inv in Hrun.
    destruct Hrun as (st1 & log1 & log2 & Hcall & Hrest & ->).
    destruct (IH _ _ _ Hrest) as (Hc & Hns & Hinfo & Hcomb & Hnh).
    rewrite advertised_app, length_app.
    destruct (call_step _ _ _ _ _ _ _ Hcall)
      as [(-> & ->) | (name & _ & _ & -> & ->)].
    + repeat split; try assumption; cbn; lia.
    + cbn [after_creation combine_sensors output_namespace node_handle
           sensor_information_publisher combined_points_publisher] in *.
      repeat split; try assumption; cbn [length]; lia.
Qed.


(** What one call publishes: nothing, or the frame of a batch on the
    channel a lookup of the sensor's name returns. *)
Lemma call_published (c : Call F) st st' log :
  run_call c st = Some (tt, st', log) ->
  published_points log = [] /\ (st' = st \/ exists name : string,
                                  c = call_get_sensor_points_publisher name)
  \/
  exists (name : string) pub creation (batch : list (CeptonSensorPoint F)),
    get_sensor_points_publisher (F:=F) name st = Some (pub, st', creation) /\
    published_points log =
      [(pub, convert_to_point_cloud (frame_id_of st name) batch)].
Proof.
  destruct c as [sdk error_code sensor_handle batch
                | error_code sensor_handle ptr sensor_event
                | name]; cbn [call].
  - intros Hrun. right.
    destruct (sdk sensor_handle) as [info|] eqn:Hsdk;
      [|rewrite on_receive_undefined in Hrun by exact Hsdk; discriminate].
    destruct (get_sensor_points_publisher_total (F:=F) st
                (get_sensor_name info))
      as (pub & st1 & creation & Hpub & Hshape).
    rewrite (on_receive_run sdk error_code sensor_handle batch st info
               pub st1 creation Hsdk Hpub) in Hrun.
    injection Hrun as <- <-.
    exists (get_sensor_name info), pub, creation, batch.
    split; [exact Hpub|].
    rewrite published_points_app.
    destruct Hshape as [[-> _] | [-> _]];
      destruct (error_code <? 0)%Z; reflexivity.
  - unfold on_event. intros Hrun. left.
    destruct (error_code <? 0)%Z.
    + injection Hrun as <- <-. split; [reflexivity | left; reflexivity].
    + destruct ptr as [info|]; [|discriminate].
      unfold bind, deref in Hrun.
      destruct (sensor_event =? CEPTON_EVENT_ATTACH)%Z;
        [|destruct (sensor_event =? CEPTON_EVENT_DETACH)%Z;
          [|destruct (sensor_event =? CEPTON_EVENT_FRAME)%Z]];
        injection Hrun as <- <-; (split; [reflexivity | left; reflexivity]).
  - intros Hrun. left. apply bind_inv in Hrun.
    destruct Hrun as (pub & st1 & log1 & log2 & Hpub & Hret & ->).
    injection Hret as <- <-. rewrite app_nil_r.
    split; [|right; exists name; reflexivity].
    destruct (lookup_step _ _ _ _ _ Hpub)
      as [(-> & _) | (-> & _)]; reflexivity.
Qed.

(** X12.  With [combine_sensors] set, no call ever changes a member or
    creates a channel, and every frame published goes to the combined
    publisher, labelled with the namespace as its frame identifier. *)
Theorem X12_combined_mode_is_static (cs : list (Call F)) :
  forall st st' log,
    combine_sensors st = true ->
    run_calls cs st = Some (tt, st', log) ->
    st' = st /\ advertised log = [] /\
    Forall (fun pc => fst pc = combined_points_publisher st /\
                      frame_id (header (snd pc)) = output_namespace st)
           (published_points log).
Proof.
  induction cs as [|c cs IH]; intros st st' log Hc Hrun.
  - injection Hrun as <- <-. repeat split. constructor.
  - apply calls_cons_inv in Hrun.
    destruct Hrun as (st1 & log1 & log2 & Hcall & Hrest & ->).
    assert (Hst1 : st1 = st /\ advertised log1 = []).
    { destruct (call_step _ _ _ _ _ _ _ Hcall)
        as [(-> & ->) | (name & Hc' & _)]; [split; reflexivity|].
      congruence. }
    destruct Hst1 as [-> Hadv1].
    destruct (IH _ _ _ Hc Hrest) as (-> & Hadv2 & Hpub2).
    rewrite advertised_app, published_points_app, Hadv1, Hadv2.
    split; [reflexivity|]. split; [reflexivity|].
    apply Forall_app. split; [|exact Hpub2].
    destruct (call_published _ _ _ _ Hcall)
      as [(-> & _) | (name & pub & creation & batch & Hpub & ->)];
      [constructor|].
    rewrite (get_sensor_points_publisher_combined st name Hc) in Hpub.
    injection Hpub as <- <-.
    constructor; [|constructor]. cbn [fst snd].
    rewrite convert_to_point_cloud_shape. cbn [header frame_id].
    unfold frame_id_of. rewrite Hc. split; reflexivity.
Qed.

Lemma after_creation_well_formed st (name : string) :
  sensor_points_publishers st !! name = None ->
  registry_well_formed st ->
  registry_well_formed (after_creation st name).
Proof.
  intros Hnone [Hnamed Hids]. split.
  - intros key pub. cbn [after_creation sensor_points_publishers
                         output_namespace node_handle].
    destruct (decide (name = key)) as [->|Hne].
    + rewrite lookup_insert_eq. intros [= <-]. cbn. repeat split; lia.
    + rewrite lookup_insert_ne by exact Hne. intros Hkey.
      destruct (Hnamed key pub Hkey) as (Ht & Hq & Hid).
      repeat split; try assumption; lia.
  - intros key1 key2 pub1 pub2.
    cbn [after_creation sensor_points_publishers].
    destruct (decide (name = key1)) as [<-|Hne1];
      destruct (decide (name = key2)) as [<-|Hne2];
      rewrite ?lookup_insert_eq, ?lookup_insert_ne by assumption.
    + intros _ _ _. reflexivity.
    + intros [= <-] H2 Heq. cbn in Heq.
      destruct (Hnamed key2 pub2 H2) as (_ & _ & Hid). lia.
    + intros H1 [= <-] Heq. cbn in Heq.
      destruct (Hnamed key1 pub1 H1) as (_ & _ & Hid). lia.
    + apply Hids.
Qed.

Lemma calls_registry_grows (cs : list (Call F)) :
  forall st st' log,
    run_calls cs st = Some (tt, st', log) ->
    forall key pub,
      sensor_points_publishers st !! key = Some pub ->
      sensor_points_publishers st' !! key = Some pub.
Proof.
  induction cs as [|c cs IH]; intros st st' log Hrun key pub Hkey.
  - injection Hrun as <- <-. exact Hkey.
  - apply calls_cons_inv in Hrun.
    destruct Hrun as (st1 & log1 & log2 & Hcall & Hrest & ->).
    apply (IH _ _ _ Hrest).
    destruct (call_step _ _ _ _ _ _ _ Hcall)
      as [(-> & _) | (name & _ & Hnone & -> & _)]; [exact Hkey|].
    cbn [after_creation sensor_points_publishers].
    rewrite lookup_insert_ne; [exact Hkey|]. intros ->. congruence.
Qed.

(** X13.  Without [combine_sensors], a registry whose entries are the
    channels of their keys (as the empty registry is) stays so through
    every sequence of calls: each entry is named
    [<namespace>_points_<key>], has a queue of 10, and no two keys share a
    publisher.  Every frame published went to the registry's channel for
    a sensor name, and its frame identifier [<namespace>_<name>] names the
    same sensor as the topic it was published on. *)
Theorem X13_per_sensor_channels_match_frames (cs : list (Call F)) :
  forall st st' log,
    combine_sensors st = false ->
    registry_well_formed st ->
    run_calls cs st = Some (tt, st', log) ->
    registry_well_formed st' /\
    Forall (fun pc =>
              exists name : string,
                sensor_points_publishers st' !! name = Some (fst pc) /\
                pub_topic (fst pc) =
                  output_namespace st +:+ "_points_" +:+ name /\
                frame_id (header (snd pc)) =
                  output_namespace st +:+ "_" +:+ name)
           (published_points log).
Proof.
  induction cs as [|c cs IH]; intros st st' log Hc Hwf Hrun.
  - injection Hrun as <- <-. split; [exact Hwf | constructor].
  - apply calls_cons_inv in Hrun.
    destruct Hrun as (st1 & log1 & log2 & Hcall & Hrest & ->).
    assert (Hst1 : combine_sensors st1 = false /\
                   output_namespace st1 = output_namespace st /\
                   registry_well_formed st1).
    { destruct (call_step _ _ _ _ _ _ _ Hcall)
        as [(-> & _) | (name & _ & Hnone & -> & _)].
      - split; [exact Hc|]. split; [reflexivity | exact Hwf].
      - split; [exact Hc|]. split; [reflexivity|].
        apply after_creation_well_formed; assumption. }
    destruct Hst1 as (Hc1 & Hns1 & Hwf1).
    destruct (IH _ _ _ Hc1 Hwf1 Hrest) as (Hwf' & Hpub2).
    split; [exact Hwf'|].
    rewrite published_points_app. apply Forall_app. split.
    + destruct (call_published _ _ _ _ Hcall)
        as [(-> & _) | (name & pub & creation & batch & Hpub & ->)];
        [constructor|].
      constructor; [|constructor]. exists name. cbn [fst snd].
      rewrite convert_to_point_cloud_shape. cbn [header frame_id].
      assert (Hentry : sensor_points_publishers st1 !! name = Some pub).
      { destruct (lookup_step _ _ _ _ _ Hpub)
          as [(_ & -> & Hch) | (_ & -> & -> & _ & _)].
        - unfold channel_of in Hch. rewrite Hc in Hch. exact Hch.
        - cbn. apply lookup_insert_eq. }
      split; [exact (calls_registry_grows _ _ _ _ Hrest _ _ Hentry)|].
      split.
      * destruct Hwf1 as [Hnamed _].
        destruct (Hnamed name pub Hentry) as (Ht & _). rewrite Ht, Hns1.
        reflexivity.
      * unfold frame_id_of. rewrite Hc. reflexivity.
    + rewrite <- Hns1. exact Hpub2.
Qed.

(** X14.  The frames of one sensor always go to one channel: after a batch
    of a sensor has been published, and whatever calls come in between,
    the next batch of a sensor with the same serial number is published on
    the same publisher, creates no channel and changes no member. *)
Theorem X14_same_sensor_same_channel
    (sdk sdk' : N -> option CeptonSensorInformation)
    (error_code error_code' : Z) (sensor_handle sensor_handle' : N)
    (batch batch' : list (CeptonSensorPoint F))
    (sensor_information sensor_information' : CeptonSensorInformation)
    (cs : list (Call F)) st st1 log1 st2 log2 :
  sdk sensor_handle = Some sensor_information ->
  sdk' sensor_handle' = Some sensor_information' ->
  serial_number sensor_information' = serial_number sensor_information ->
  on_receive sdk error_code sensor_handle batch st = Some (tt, st1, log1) ->
  run_calls cs st1 = Some (tt, st2, log2) ->
  exists log3,
    on_receive sdk' error_code' sensor_handle' batch' st2 =
      Some (tt, st2, log3) /\
    advertised log3 = [] /\
    map fst (published_points log3) = map fst (published_points log1).
Proof.
  intros Hsdk Hsdk' Hserial Hfirst Hcalls.
  destruct (get_sensor_points_publisher_total (F:=F) st
              (get_sensor_name sensor_information))
    as (pub & st1' & creation & Hpub & Hshape).
  rewrite (on_receive_run sdk error_code sensor_handle batch st
             sensor_information pub st1' creation Hsdk Hpub) in Hfirst.
  injection Hfirst as <- <-.
  assert (Hch1 : channel_of st1' (get_sensor_name sensor_information) =
                 Some pub).
  { destruct (lookup_step _ _ _ _ _ Hpub)
      as [(_ & -> & Hch) | (_ & -> & -> & Hc & _)]; [exact Hch|].
    unfold channel_of. cbn. rewrite Hc. apply lookup_insert_eq. }
  destruct (calls_settled _ _ _ cs _ _ _ _ _ Hch1 Hcalls) as (Hch2 & _).
  assert (Hname : get_sensor_name sensor_information' =
                  get_sensor_name sensor_information).
  { unfold get_sensor_name. rewrite Hserial. reflexivity. }
  pose proof (lookup_settled (F:=F) _ _ _ Hch2) as Hpub2.
  rewrite <- Hname in Hpub2.
  eexists. split.
  - exact (on_receive_run sdk' error_code' sensor_handle' batch' st2
             sensor_information' pub st2 [] Hsdk' Hpub2).
  - rewrite !published_points_app, advertised_app.
    destruct Hshape as [[-> _] | [-> _]];
      destruct (error_code <? 0)%Z; destruct (error_code' <? 0)%Z;
      split; reflexivity.
Qed.

(** What one call looks up. *)
Lemma call_lookup (c : Call F) st st' log :
  run_call c st = Some (tt, st', log) ->
  looked_up c = ∅ /\ st' = st \/
  exists (name : string) pub creation,
    looked_up c = {[name]} /\
    get_sensor_points_publisher (F:=F) name st = Some (pub, st', creation).
Proof.
  destruct c as [sdk error_code sensor_handle batch
                | error_code sensor_handle ptr sensor_event
                | name]; cbn [call looked_up].
  - intros Hrun. right.
    destruct (sdk sensor_handle) as [info|] eqn:Hsdk;
      [|rewrite on_receive_undefined in Hrun by exact Hsdk; discriminate].
    destruct (get_sensor_points_publisher_total (F:=F) st
                (get_sensor_name info))
      as (pub & st1 & creation & Hpub & _).
    rewrite (on_receive_run sdk error_code sensor_handle batch st info
               pub st1 creation Hsdk Hpub) in Hrun.
    injection Hrun as <- <-.
    exists (get_sensor_name info), pub, creation.
    split; [reflexivity | exact Hpub].
  - intros Hrun. left. split; [reflexivity|].
    destruct (call_step CEPTON_EVENT_ATTACH CEPTON_EVENT_DETACH
                CEPTON_EVENT_FRAME
                (call_on_event error_code sensor_handle ptr sensor_event)
                st st' log Hrun)
      as [(-> & _) | (name & _ & _ & -> & Hadv)]; [reflexivity|].
    exfalso. revert Hrun Hadv. unfold call, on_event.
    destruct (error_code <? 0)%Z.
    + intros [= _ <-]. discriminate.
    + destruct ptr as [info|]; [|discriminate].
      unfold bind, deref.
      destruct (sensor_event =? CEPTON_EVENT_ATTACH)%Z;
        [|destruct (sensor_event =? CEPTON_EVENT_DETACH)%Z;
          [|destruct (sensor_event =? CEPTON_EVENT_FRAME)%Z]];
        intros [= _ <-]; discriminate.
  - intros Hrun. right. apply bind_inv in Hrun.
    destruct Hrun as (pub & st1 & log1 & log2 & Hpub & Hret & ->).
    injection Hret as <- <-.
    exists name, pub, log1. split; [reflexivity | exact Hpub].
Qed.

Lemma lookup_dom st (name : string) pub st' creation :
  combine_sensors st = false ->
  get_sensor_points_publisher (F:=F) name st = Some (pub, st', creation) ->
  dom (sensor_points_publishers st') =
  dom (sensor_points_publishers st) ∪ {[name]}.
Proof.
  intros Hc Hpub.
  destruct (lookup_step _ _ _ _ _ Hpub)
    as [(_ & -> & Hch) | (_ & -> & _ & _ & _)].
  - unfold channel_of in Hch. rewrite Hc in Hch.
    assert (name ∈ dom (sensor_points_publishers st))
      by (apply elem_of_dom; eexists; exact Hch).
    set_solver.
  - cbn [after_creation sensor_points_publishers].
    rewrite dom_insert_L. set_solver.
Qed.

(** X15.  The registry holds a channel for exactly the sensor names looked
    up so far: without [combine_sensors], the keys after a sequence of
    calls are the keys before it and the names its calls looked up; with
    [combine_sensors] the keys do not change. *)
Theorem X15_registry_keys_are_names_seen (cs : list (Call F)) :
  forall st st' log,
    run_calls cs st = Some (tt, st', log) ->
    dom (sensor_points_publishers st') =
    if combine_sensors st then dom (sensor_points_publishers st)
    else dom (sensor_points_publishers st) ∪ all_looked_up cs.
Proof.
  induction cs as [|c cs IH]; intros st st' log Hrun.
  - injection Hrun as <- <-. unfold all_looked_up. cbn.
    destruct (combine_sensors st); [reflexivity | set_solver].
  - apply calls_cons_inv in Hrun.
    destruct Hrun as (st1 & log1 & log2 & Hcall & Hrest & ->).
    rewrite (IH _ _ _ Hrest).
    assert (Hc1 : combine_sensors st1 = combine_sensors st).
    { destruct (call_step _ _ _ _ _ _ _ Hcall)
        as [(-> & _) | (name & _ & _ & -> & _)]; reflexivity. }
    rewrite Hc1. unfold all_looked_up. cbn [map union_list].
    fold (all_looked_up cs).
    destruct (combine_sensors st) eqn:Hc.
    + destruct (call_step _ _ _ _ _ _ _ Hcall)
        as [(-> & _) | (name & Hc' & _)]; [reflexivity | congruence].
    + destruct (call_lookup _ _ _ _ Hcall)
        as [(-> & ->) | (name & pub & creation & -> & Hpub)].
      * set_solver.
      * rewrite (lookup_dom _ _ _ _ _ Hc Hpub). set_solver.
Qed.
End MembersLife.

Lemma X11_configuration_never_changes_witness :
  match calls 1 2 3 two_batches (sample_nodelet false) with
  | Some (_, st', log) =>
      combine_sensors st' = false /\
      output_namespace st' = "cepton"%string /\
      node_handle st' = (1 + N.of_nat (length (advertised log)))%N
  | None => False
  end.
Proof.
  destruct (calls 1 2 3 two_batches (sample_nodelet false))
    as [[[[] st'] log]|] eqn:Hrun; [|vm_compute in Hrun; discriminate].
  destruct (X11_configuration_never_changes 1 2 3 two_batches _ _ _ Hrun)
    as (Hc & Hns & _ & _ & Hnh).
  repeat split; assumption.
Defined.

Lemma X12_combined_mode_is_static_witness :
  match calls 1 2 3 two_batches (sample_nodelet true) with
  | Some (_, st', log) =>
      st' = sample_nodelet true /\ advertised log = [] /\
      Forall
        (fun pc => fst pc = combined_points_publisher (sample_nodelet true))
        (published_points log)
  | None => False
  end.
Proof.
  destruct (calls 1 2 3 two_batches (sample_nodelet true))
    as [[[[] st'] log]|] eqn:Hrun; [|vm_compute in Hrun; discriminate].
  destruct (X12_combined_mode_is_static 1 2 3 two_batches
              (sample_nodelet true) st' log eq_refl Hrun)
    as (Hst & Hadv & Hpub).
  split; [exact Hst|]. split; [exact Hadv|].
  eapply Forall_impl; [exact Hpub|]. intros pc [Hfst _]. exact Hfst.
Defined.

Lemma sample_registry_well_formed :
  registry_well_formed (sample_nodelet false).
Proof.
  split.
  - intros key pub Hkey. cbn in Hkey. rewrite lookup_empty in Hkey.
    discriminate.
  - intros key1 key2 pub1 pub2 Hkey. cbn in Hkey.
    rewrite lookup_empty in Hkey. discriminate.
Defined.

Lemma X13_per_sensor_channels_match_frames_witness :
  registry_well_formed (sample_nodelet false) /\
  match calls 1 2 3 two_batches (sample_nodelet false) with
  | Some (_, st', log) =>
      registry_well_formed st' /\
      Forall (fun pc =>
                exists name : string,
                  sensor_points_publishers st' !! name = Some (fst pc) /\
                  pub_topic (fst pc) = "cepton" +:+ "_points_" +:+ name /\
                  frame_id (header (snd pc)) = "cepton" +:+ "_" +:+ name)
             (published_points log)
  | None => False
  end.
Proof.
  split; [exact sample_registry_well_formed|].
  destruct (calls 1 2 3 two_batches (sample_nodelet false))
    as [[[[] st'] log]|] eqn:Hrun; [|vm_compute in Hrun; discriminate].
  exact (X13_per_sensor_channels_match_frames 1 2 3 two_batches
           (sample_nodelet false) st' log
           eq_refl sample_registry_well_formed Hrun).
Defined.

Lemma X14_same_sensor_same_channel_witness :
  match on_receive two_sensors_sdk 0 7 [sample_point 100 0]
          (sample_nodelet false) with
  | Some (_, st1, log1) =>
      match calls 1 2 3 two_batches st1 with
      | Some (_, st2, _) =>
          exists log3,
            on_receive two_sensors_sdk (-6) 7 [sample_point 400 1] st2 =
              Some (tt, st2, log3) /\
            advertised log3 = [] /\
            map fst (published_points log3) =
              map fst (published_points log1)
      | None => False
      end
  | None => False
  end.
Proof.
  destruct (on_receive two_sensors_sdk 0 7 [sample_point 100 0]
              (sample_nodelet false))
    as [[[[] st1] log1]|] eqn:Hfirst; [|vm_compute in Hfirst; discriminate].
  destruct (calls 1 2 3 two_batches st1)
    as [[[[] st2] log2]|] eqn:Hcalls.
  - exact (X14_same_sensor_same_channel 1 2 3 two_sensors_sdk two_sensors_sdk
             0 (-6) 7 7 [sample_point 100 0] [sample_point 400 1]
             sample_information sample_information two_batches
             _ _ _ _ _ eq_refl eq_refl eq_refl Hfirst Hcalls).
  - vm_compute in Hfirst. injection Hfirst as <- _.
    vm_compute in Hcalls. discriminate.
Defined.

Lemma X15_registry_keys_are_names_seen_witness :
  match calls 1 2 3 two_batches (sample_nodelet false) with
  | Some (_, st', _) =>
      dom (sensor_points_publishers st') =
      dom (sensor_points_publishers (sample_nodelet false)) ∪
      all_looked_up two_batches
  | None => False
  end.
Proof.
  destruct (calls 1 2 3 two_batches (sample_nodelet false))
    as [[[[] st'] log]|] eqn:Hrun; [|vm_compute in Hrun; discriminate].
  exact (X15_registry_keys_are_names_seen 1 2 3 two_batches _ _ _ Hrun).
Defined.

(** ** Names, effects and batches *)

Lemma frame_id_inj (ns name key : string) :
  ns +:+ "_" +:+ name = ns +:+ "_" +:+ key -> name = key.
Proof.
  intros Heq. apply (inj (String.app ns)) in Heq.
  apply (inj (String.app "_")) in Heq. exact Heq.
Qed.

Lemma get_sensor_name_inj (a b : CeptonSensorInformation) :
  get_sensor_name a = get_sensor_name b -> serial_number a = serial_number b.
Proof.
  intros Heq.
  pose proof (decimal_value_to_string (serial_number a)) as Ha.
  pose proof (decimal_value_to_string (serial_number b)) as Hb.
  unfold get_sensor_name in Heq. rewrite Heq in Ha. congruence.
Qed.

(** X16.  Without [combine_sensors], two sensors share a points topic, or
    a frame identifier, exactly when they have the same serial number:
    sensors with different serial numbers never publish on one topic. *)
Theorem X16_topics_separate_serial_numbers {F : Type}
    (a b : CeptonSensorInformation) (st : DriverNodelet) :
  combine_sensors st = false ->
  (get_sensor_points_topic_id (F:=F) (get_sensor_name a) st =
   get_sensor_points_topic_id (F:=F) (get_sensor_name b) st <->
   serial_number a = serial_number b) /\
  (get_sensor_frame_id (F:=F) (get_sensor_name a) st =
   get_sensor_frame_id (F:=F) (get_sensor_name b) st <->
   serial_number a = serial_number b).
Proof.
  intros Hc.
  rewrite !get_sensor_points_topic_id_run, !get_sensor_frame_id_run.
  unfold frame_id_of, get_sensor_name. rewrite Hc. split; split.
  - intros [= Heq]. apply points_topic_inj in Heq.
    exact (get_sensor_name_inj a b Heq).
  - intros ->. reflexivity.
  - intros [= Heq]. apply frame_id_inj in Heq.
    exact (get_sensor_name_inj a b Heq).
  - intros ->. reflexivity.
Qed.

Lemma X16_topics_separate_serial_numbers_witness :
  combine_sensors (sample_nodelet false) = false /\
  (get_sensor_points_topic_id (F:=Z) (get_sensor_name sample_information)
     (sample_nodelet false) =
   get_sensor_points_topic_id (F:=Z) (get_sensor_name sample_information)
     (sample_nodelet false) <->
   serial_number sample_information = serial_number sample_information).
Proof.
  split; [reflexivity|].
  exact (proj1 (X16_topics_separate_serial_numbers (F:=Z)
                  sample_information sample_information
                  (sample_nodelet false) eq_refl)).
Defined.



Lemma message_timestamp_of_app {F : Type}
    (batch1 batch2 : list (CeptonSensorPoint F)) :
  message_timestamp_of (batch1 ++ batch2) =
  N.max (message_timestamp_of batch1) (message_timestamp_of batch2).
Proof.
  unfold message_timestamp_of at 1. rewrite fold_left_app.
  fold (message_timestamp_of batch1). apply fold_max_shift.
Qed.

(** X18.  The cloud of a batch made of two batches one after the other:
    its stamp is the later of the two stamps, its points are the points of
    the first followed by those of the second, and its width is the sum of
    the two widths as a 32-bit counter. *)
Theorem X18_cloud_of_concatenated_batches {F : Type} (frame : string)
    (batch1 batch2 : list (CeptonSensorPoint F)) :
  let cloud := convert_to_point_cloud frame (batch1 ++ batch2) in
  let cloud1 := convert_to_point_cloud frame batch1 in
  let cloud2 := convert_to_point_cloud frame batch2 in
  stamp (header cloud) =
    N.max (stamp (header cloud1)) (stamp (header cloud2)) /\
  points cloud = points cloud1 ++ points cloud2 /\
  width cloud = ((width cloud1 + width cloud2) mod 2 ^ 32)%N /\
  height cloud = 1%N.
Proof.
  cbv zeta. rewrite !convert_to_point_cloud_shape.
  cbn [header stamp points width height].
  split; [apply message_timestamp_of_app|].
  split; [apply map_app|]. split; [|reflexivity].
  rewrite length_app, Nat2N.inj_add. apply N.Div0.add_mod.
Qed.

(** ** Error codes *)

(** X19.  Every enumerator of [CeptonSensorErrorCode] other than
    [CEPTON_SUCCESS] is negative and stands for an integer no other
    enumerator stands for.  So [on_event] called with it drops the
    notification, logging only the failure, whatever the snapshot pointer
    and the event are, and the test [error_code != CEPTON_SUCCESS] of
    [onInit] agrees with the test [error_code < 0] of the callbacks. *)
Theorem X19_error_codes_are_negative {F : Type} (e : CeptonSensorErrorCode)
    (CEPTON_EVENT_ATTACH CEPTON_EVENT_DETACH CEPTON_EVENT_FRAME : Z)
    (sensor_handle : N)
    (sensor_information_ptr : option CeptonSensorInformation)
    (sensor_event : Z) (st : DriverNodelet) :
  e <> CEPTON_SUCCESS ->
  (error_code_value e < 0)%Z /\
  error_code_value e <> error_code_value CEPTON_SUCCESS /\
  (forall e', error_code_value e' = error_code_value e -> e' = e) /\
  on_event (F:=F) CEPTON_EVENT_ATTACH CEPTON_EVENT_DETACH CEPTON_EVENT_FRAME
    (error_code_value e) sensor_handle sensor_information_ptr sensor_event
    st =
  Some (tt, st, [NODELET_WARN "on_event failed: %i" (error_code_value e)]).
Proof.
  intros Hne.
  assert (Hneg : (error_code_value e < 0)%Z)
    by (destruct e; try reflexivity; congruence).
  split; [exact Hneg|]. split; [cbn; lia|]. split.
  - intros e' Heq. destruct e; destruct e'; try reflexivity;
      vm_compute in Heq; discriminate Heq.
  - unfold on_event. apply Z.ltb_lt in Hneg. rewrite Hneg. reflexivity.
Qed.

Lemma X19_error_codes_are_negative_witness :
  CEPTON_ERROR_COMMUNICATION <> CEPTON_SUCCESS /\
  (error_code_value CEPTON_ERROR_COMMUNICATION < 0)%Z /\
  on_event (F:=Z) 1 2 3 (error_code_value CEPTON_ERROR_COMMUNICATION) 7
    None 1 (sample_nodelet false) =
  Some (tt, sample_nodelet false,
        [NODELET_WARN "on_event failed: %i" (-6)]).
Proof.
  assert (Hne : CEPTON_ERROR_COMMUNICATION <> CEPTON_SUCCESS)
    by discriminate.
  split; [exact Hne|].
  destruct (X19_error_codes_are_negative (F:=Z) CEPTON_ERROR_COMMUNICATION
              1 2 3 7 None 1 (sample_nodelet false) Hne)
    as (Hneg & _ & _ & Hrun).
  split; [exact Hneg | exact Hrun].
Defined.

(** ** Setup *)

(** The part of [onInit] before the driver is initialized always runs. *)
Lemma onInit_run {F : Type} (params : Params) (answers : SetupAnswers)
    (st : DriverNodelet) :
  setup_ok params answers ->
  let combine := param (combine_sensors_param params) (combine_sensors st) in
  let ns := param (output_namespace_param params) (output_namespace st) in
  let information_publisher :=
    {| pub_id := N.succ (node_handle st);
       pub_topic := ns +:+ "_sensor_information";
       pub_queue_size := 2 |} in
  let points_publisher :=
    {| pub_id := N.succ (N.succ (node_handle st));
       pub_topic := ns +:+ "_points";
       pub_queue_size := 2 |} in
  onInit (F:=F) params answers st =
  Some (tt,
        {| node_handle :=
             if combine then N.succ (N.succ (node_handle st))
             else N.succ (node_handle st);
           combine_sensors := combine;
           output_namespace := ns;
           sensor_information_publisher := information_publisher;
           combined_points_publisher :=
             if combine then points_publisher
             else combined_points_publisher st;
           sensor_points_publishers := sensor_points_publishers st |},
        ADVERTISE information_publisher ::
        (if combine then [ADVERTISE points_publisher] else [])).
Proof.
  intros Hok. cbv zeta. unfold onInit.
  unfold bind, read, set_combine_sensors, set_output_namespace, advertise,
    set_sensor_information_publisher, set_combined_points_publisher,
    get_sensor_points_topic_id, ret.
  unfold NODELET_FATAL_string_of_int.
  destruct Hok as [Hd | [Hpath | [Hopen Hresume]]].
  - rewrite Hd.
    destruct (param (combine_sensors_param params) (combine_sensors st));
      reflexivity.
  - rewrite Hpath.
    destruct (param (combine_sensors_param params) (combine_sensors st));
      destruct (driver_initialize answers); reflexivity.
  - rewrite Hopen, Hresume.
    destruct (param (combine_sensors_param params) (combine_sensors st));
      destruct (driver_initialize answers);
      destruct (String.eqb (param (capture_path_param params) "") "");
      reflexivity.
Qed.

(** X20.  On every setup that reaches no [NODELET_FATAL], [onInit] takes
    [combine_sensors] and [output_namespace] from the parameters, keeping
    the member's value for a parameter that is not set; it creates the
    sensor information channel [<namespace>_sensor_information] with a
    queue of 2 and, only with [combine_sensors], the combined channel
    [<namespace>_points] with a queue of 2; it publishes nothing and
    leaves the registry as it is, so an empty registry is left well
    formed.  This is so whether or not the driver initializes. *)
Theorem X20_onInit_sets_up_channels {F : Type}
    (params : Params) (answers : SetupAnswers) (st : DriverNodelet) :
  setup_ok params answers ->
  exists st' (log : list (Event F)),
    onInit params answers st = Some (tt, st', log) /\
    combine_sensors st' =
      param (combine_sensors_param params) (combine_sensors st) /\
    output_namespace st' =
      param (output_namespace_param params) (output_namespace st) /\
    sensor_points_publishers st' = sensor_points_publishers st /\
    published_points log = [] /\ published_information log = [] /\
    pub_topic (sensor_information_publisher st') =
      output_namespace st' +:+ "_sensor_information" /\
    pub_queue_size (sensor_information_publisher st') = 2%N /\
    (if combine_sensors st'
     then advertised log = [sensor_information_publisher st';
                            combined_points_publisher st'] /\
          pub_topic (combined_points_publisher st') =
            output_namespace st' +:+ "_points" /\
          pub_queue_size (combined_points_publisher st') = 2%N
     else advertised log = [sensor_information_publisher st'] /\
          combined_points_publisher st' = combined_points_publisher st) /\
    (sensor_points_publishers st = ∅ -> registry_well_formed st').
Proof.
  intros Hok.
  pose proof (onInit_run (F:=F) params answers st Hok) as Hrun.
  cbv zeta in Hrun.
  assert (Hwf : forall st' : DriverNodelet,
             sensor_points_publishers st' = sensor_points_publishers st ->
             sensor_points_publishers st = ∅ -> registry_well_formed st').
  { intros st' Hreg Hempty. rewrite Hempty in Hreg. split.
    - intros key pub. rewrite Hreg, lookup_empty. discriminate.
    - intros key1 key2 pub1 pub2. rewrite Hreg, lookup_empty.
      discriminate. }
  destruct (param (combine_sensors_param params) (combine_sensors st));
    (eexists; eexists; split; [exact Hrun|]);
    cbn [combine_sensors output_namespace sensor_points_publishers
         sensor_information_publisher combined_points_publisher
         pub_topic pub_queue_size];
    do 7 (split; [reflexivity|]);
    (split; [repeat split; reflexivity | apply Hwf; reflexivity]).
Qed.

Lemma X20_onInit_sets_up_channels_witness :
  setup_ok (sample_params true) sample_answers /\
  exists st' (log : list (Event Z)),
    onInit (sample_params true) sample_answers
      (constructed 0 false "cepton") = Some (tt, st', log) /\
    combine_sensors st' = true /\
    output_namespace st' = "lidar"%string /\
    sensor_points_publishers st' = ∅.
Proof.
  assert (Hok : setup_ok (sample_params true) sample_answers)
    by (right; left; reflexivity).
  split; [exact Hok|].
  destruct (X20_onInit_sets_up_channels (F:=Z) (sample_params true)
              sample_answers (constructed 0 false "cepton") Hok)
    as (st' & log & Hrun & Hc & Hns & Hreg & _).
  exists st', log. repeat split; assumption.
Defined.

Example onInit_combined_channels :
  option_map (fun r => map pub_topic (advertised (snd r)))
    (onInit (F:=Z) (sample_params true) sample_answers
       (constructed 0 false "cepton")) =
  Some ["lidar_sensor_information"; "lidar_points"]%string.
Proof. reflexivity. Qed.

(** X21.  [onInit] returns normally exactly on the setups that reach no
    [NODELET_FATAL].  When the driver initializes, a capture path is set,
    and opening or resuming the capture fails, it reaches a
    [NODELET_FATAL] whose [%s] conversion is given the integer error code,
    which is undefined behaviour. *)
Theorem X21_onInit_defined_iff_no_fatal {F : Type}
    (params : Params) (answers : SetupAnswers) (st : DriverNodelet) :
  is_Some (onInit (F:=F) params answers st) <-> setup_ok params answers.
Proof.
  split.
  - intros Hsome.
    destruct (driver_initialize answers) eqn:Hd; [|left; exact Hd].
    destruct (String.eqb (param (capture_path_param params) "") "")
      eqn:Hpath; [right; left; apply String.eqb_eq, Hpath|].
    destruct (cepton_sdk_capture_replay_open answers
                (param (capture_path_param params) "") =? 0)%Z eqn:Hopen.
    + destruct (cepton_sdk_capture_replay_resume answers =? 0)%Z
        eqn:Hresume.
      * right; right. split; apply Z.eqb_eq; assumption.
      * exfalso. destruct Hsome as [r Hr]. revert Hr.
        unfold onInit, bind, read, set_combine_sensors,
          set_output_namespace, advertise,
          set_sensor_information_publisher,
          set_combined_points_publisher, get_sensor_points_topic_id, ret,
          NODELET_FATAL_string_of_int.
        cbn. rewrite Hd, Hpath, Hopen, Hresume.
        destruct (param (combine_sensors_param params)
                    (combine_sensors st)); discriminate.
    + exfalso. destruct Hsome as [r Hr]. revert Hr.
      unfold onInit, bind, read, set_combine_sensors,
        set_output_namespace, advertise,
        set_sensor_information_publisher,
        set_combined_points_publisher, get_sensor_points_topic_id, ret,
        NODELET_FATAL_string_of_int.
      cbn. rewrite Hd, Hpath, Hopen.
      destruct (param (combine_sensors_param params)
                  (combine_sensors st)); discriminate.
  - intros Hok. rewrite (onInit_run params answers st Hok).
    eexists. reflexivity.
Qed.

Example onInit_capture_open_fails :
  onInit (F:=Z)
    {| capture_path_param := Some "capture.pcap"%string;
       combine_sensors_param := None;
       output_namespace_param := None |}
    sample_answers (constructed 0 false "cepton") = None.
Proof. reflexivity. Qed.
